(** * The resume-analysis demo front-end (app.py): prompt builder, retrying
    request dispatcher and payload construction.

    The Streamlit script is embedded shallowly.  Python values that travel
    through the program (JSON bodies, payloads, the user's requirements) are
    values of [pyval]; dict literals and parsed JSON objects are association
    lists in insertion order.  What the dispatcher does to the outside world
    (Streamlit widgets, the HTTP POST, [time.sleep]) is recorded, in order, in
    a trace of [event]s threaded through a state-and-exception monad [M].
    The remote endpoint is a parameter: [server url payload k] is what the
    k-th POST of a dispatch meets (a response, or an exception raised by
    [session.post]). *)

From Stdlib Require Import String Ascii List ZArith Lia Bool Arith.
From Stdlib Require Import Permutation Sorted OrderedTypeEx.
Import ListNotations.
Open Scope string_scope.
Open Scope list_scope.
Open Scope nat_scope.

Set Warnings "-register-all".

(** ** Python values *)

Inductive pyval : Type :=
| PNone
| PBool (b : bool)
| PInt (z : Z)
| PFloat (m e : Z)                      (* the double m * 2^e *)
| PStr (s : string)
| PList (l : list pyval)
| PDict (d : list (string * pyval)).

(** Truth value of an object, as tested by [if x:]. *)
Definition truthy (v : pyval) : bool :=
  match v with
  | PNone => false
  | PBool b => b
  | PInt z => negb (z =? 0)%Z
  | PFloat m _ => negb (m =? 0)%Z
  | PStr s => match s with EmptyString => false | String _ _ => true end
  | PList l => match l with [] => false | _ :: _ => true end
  | PDict d => match d with [] => false | _ :: _ => true end
  end.

Fixpoint assoc (k : string) (d : list (string * pyval)) : option pyval :=
  match d with
  | [] => None
  | (k', v) :: d' => if String.eqb k k' then Some v else assoc k d'
  end.

(** [d.get(k, default)] on a dict. *)
Definition dict_get (d : list (string * pyval)) (k : string) (default : pyval) : pyval :=
  match assoc k d with
  | Some v => v
  | None => default
  end.

Definition keys (d : list (string * pyval)) : list string := map fst d.

Definition has_key (v : pyval) (k : string) : bool :=
  match v with
  | PDict d => existsb (String.eqb k) (keys d)
  | _ => false
  end.

(** ** Exceptions

    The handlers of [analyze_resumes] tell exceptions apart by class only.
    [ClsTimeout] stands for [requests.exceptions.Timeout] and its subclasses,
    [ClsRequestException] for the other subclasses of [RequestException],
    [ClsException] for every other subclass of [Exception], and
    [ClsBaseException] for what derives from [BaseException] alone
    ([KeyboardInterrupt], [SystemExit]). *)

Inductive exn_class : Type :=
| ClsTimeout
| ClsRequestException
| ClsException
| ClsBaseException.

Record exn : Type := mkExn { exn_cls : exn_class; exn_msg : string }.

(** [isinstance(e, requests.exceptions.Timeout)] *)
Definition is_Timeout (e : exn) : bool :=
  match exn_cls e with ClsTimeout => true | _ => false end.

(** [isinstance(e, requests.exceptions.RequestException)] *)
Definition is_RequestException (e : exn) : bool :=
  match exn_cls e with ClsTimeout | ClsRequestException => true | _ => false end.

(** [isinstance(e, Exception)] *)
Definition is_Exception (e : exn) : bool :=
  match exn_cls e with ClsBaseException => false | _ => true end.

Definition AttributeError (msg : string) : exn := mkExn ClsException msg.

(** ** Formatted strings

    An f-string is kept as its sequence of parts: literal text and the
    interpolated values, not yet rendered. *)

Inductive frag : Type :=
| Txt (s : string)
| Fmt (v : pyval)                        (* {v} *)
| FmtExn (e : exn)                       (* {str(e)} *)
| FmtElapsed.                            (* {end_time - start_time:.2f} *)

Definition fstring : Type := list frag.

(** ** The HTTP side *)

Record Session : Type := mkSession { attr_timeout : option (Z * Z) }.

Record Response : Type := mkResponse {
  status_code : Z;
  headers : list (string * string);
  text : string;
  json_body : option pyval               (* None: the body is not valid JSON *)
}.

Inductive post_outcome : Type :=
| Responds (r : Response)
| PostRaises (e : exn).

(** ** Observable events *)

Inductive event : Type :=
| StSubheader (m : fstring)
| StExpander (label : string)
| StSpinner (m : fstring)
| StJson (v : pyval)
| StWrite (m : fstring)
| StError (m : fstring)
| StSuccess (m : fstring)
| StWarning (m : fstring)
| TimeTime
| SessionPost (s : Session) (url : string) (json : pyval) (timeout : option (Z * Z))
| TimeSleep (secs : Z).

Definition is_post (e : event) : bool :=
  match e with SessionPost _ _ _ _ => true | _ => false end.

Definition is_sleep (e : event) : bool :=
  match e with TimeSleep _ => true | _ => false end.

Definition is_success (e : event) : bool :=
  match e with StSuccess _ => true | _ => false end.

(** Number of network calls in a trace. *)
Definition posts (tr : list event) : nat := length (filter is_post tr).

(** The delays of a trace, in order. *)
Definition sleeps (tr : list event) : list event := filter is_sleep tr.

(** Network calls and delays of a trace, in order. *)
Definition io (tr : list event) : list event :=
  filter (fun e => is_post e || is_sleep e) tr.

(** The timeout [requests] applies to a request sent by
    [Session.post(url, json=..., timeout=kw)]: [Session.request] hands its own
    [timeout] argument (default [None], wait forever) to the adapter; an
    attribute named [timeout] set on the session object is not among the
    settings the library merges into a request. *)
Definition request_timeout (s : Session) (kw : option (Z * Z)) : option (Z * Z) := kw.

Definition applied_timeout (e : event) : option (option (Z * Z)) :=
  match e with
  | SessionPost s _ _ kw => Some (request_timeout s kw)
  | _ => None
  end.

(** ** State-and-exception monad over the trace *)

Inductive outcome (A : Type) : Type :=
| Ok (a : A)
| Raise (e : exn).
Arguments Ok {A} a.
Arguments Raise {A} e.

Definition M (A : Type) : Type := list event -> outcome A * list event.

Definition ret {A} (a : A) : M A := fun tr => (Ok a, tr).

Definition bind {A B} (m : M A) (f : A -> M B) : M B :=
  fun tr =>
    match m tr with
    | (Ok a, tr') => f a tr'
    | (Raise e, tr') => (Raise e, tr')
    end.

Definition raise {A} (e : exn) : M A := fun tr => (Raise e, tr).

Definition emit (e : event) : M unit := fun tr => (Ok tt, tr ++ [e]).

Declare Scope py_scope.
Delimit Scope py_scope with py.
Notation "x <- m ;; k" := (bind m (fun x => k))
  (at level 61, m at next level, right associativity) : py_scope.
Notation "m ;; k" := (bind m (fun _ => k))
  (at level 61, right associativity) : py_scope.
Open Scope py_scope.

(** [try: body except C1: h1 except C2: h2 ...]: the first clause whose class
    test accepts the exception runs; with none, the exception propagates. *)
Fixpoint dispatch_handlers {A} (hs : list ((exn -> bool) * (exn -> M A))) (e : exn) : M A :=
  match hs with
  | [] => raise e
  | (test, h) :: hs' => if test e then h e else dispatch_handlers hs' e
  end.

Definition try_except {A} (body : M A) (hs : list ((exn -> bool) * (exn -> M A))) : M A :=
  fun tr =>
    match body tr with
    | (Ok a, tr') => (Ok a, tr')
    | (Raise e, tr') => dispatch_handlers hs e tr'
    end.

(** [type(v).__name__] *)
Definition type_name (v : pyval) : string :=
  match v with
  | PNone => "NoneType"
  | PBool _ => "bool"
  | PInt _ => "int"
  | PFloat _ _ => "float"
  | PStr _ => "str"
  | PList _ => "list"
  | PDict _ => "dict"
  end.

(** [v.get(k, default)]: only dicts have the method. *)
Definition py_get (v : pyval) (k : string) (default : pyval) : M pyval :=
  match v with
  | PDict d => ret (dict_get d k default)
  | _ => raise (AttributeError ("'" ++ type_name v ++ "' object has no attribute 'get'")%string)
  end.

(** ** get_analysis_prompt (app.py, lines 60-82) *)

Definition nl : string := String "010"%char EmptyString.

Definition base_prompt : string := "
    For each provided resume image, evaluate the candidate based on the following criteria:

    1. **Tenure at Previous Companies**: Assess the duration of employment at each company, highlighting instances of long-term commitments (e.g., 5-10 years) and noting any patterns of short-term engagements.

    2. **Job Description Alignment**: Determine how closely the candidate's experience, skills, and qualifications match the specified job description. Identify areas of strong alignment and any gaps.

    3. **Skill Relevance and Proficiency**: Analyze the listed skills, their relevance to the job role, and the proficiency level indicated by the candidate's experience.

    4. **Career Progression**: Examine the trajectory of the candidate's career, noting evidence of growth such as promotions, increased responsibilities, or diversification of skills.

    5. **Educational Background**: Review the candidate's educational qualifications, considering the relevance of degrees, certifications, and continuous learning efforts to the job role.

    6. **Stability and Commitment**: Beyond tenure, assess overall stability by evaluating the frequency of job changes and any patterns that may indicate a lack of commitment.

    7. **Cultural Fit Indicators**: Identify any information suggesting the candidate's alignment with the company's values and culture, such as participation in relevant projects, initiatives, or organizations.
    ".

Definition additional_requirements : string :=
  (nl ++ nl ++ "Additional Requirements:" ++ nl)%string.

Section Prompt.

(** [format(v, '')] for values that are not strings. *)
Variable format_value : pyval -> string.

Definition py_format (v : pyval) : string :=
  match v with
  | PStr s => s
  | _ => format_value v
  end.

Definition get_analysis_prompt (user_requirements : pyval) : string :=
  if truthy user_requirements then
    (base_prompt ++ additional_requirements ++ py_format user_requirements)%string
  else base_prompt.

End Prompt.

(** ** analyze_resumes (app.py, lines 84-157) *)

(** What lies outside the program: how the installed [requests] reports a
    body that does not parse (since 2.27 its [JSONDecodeError] derives from
    [RequestException]; before, a plain [ValueError] came out of the json
    module), and what each POST of a dispatch meets. *)
Record World : Type := mkWorld {
  json_error_is_request_exception : bool;
  json_error_msg : string -> string;
  server : string -> pyval -> nat -> post_outcome
}.

Definition max_retries : nat := 3.
Definition retry_delay : Z := 5.

(** How one pass through the [try] statement ends: by [return v], or by
    falling out of it with the new value of [current_try]. *)
Inductive ctl : Type :=
| Return (v : pyval)
| Next (current_try : nat).

(** The call as a machine: [Running] while control is in the loop,
    [Returned v] once it has returned [v], [Raised e] when [e] has left it. *)
Inductive status : Type :=
| Running
| Returned (v : pyval)
| Raised (e : exn).

Record state : Type := mkState {
  current_try : nat;
  trace : list event;
  st : status
}.

Section Dispatcher.

Variable w : World.

Definition JSONDecodeError (body : string) : exn :=
  mkExn (if json_error_is_request_exception w then ClsRequestException else ClsException)
        (json_error_msg w body).

(** [response.json()] *)
Definition response_json (r : Response) : M pyval :=
  match json_body r with
  | Some v => ret v
  | None => raise (JSONDecodeError (text r))
  end.

(** [dict(response.headers)] *)
Definition headers_dict (r : Response) : pyval :=
  PDict (map (fun kv => (fst kv, PStr (snd kv))) (headers r)).

(** [session.post(endpoint, json=payload)]: the call is recorded with the
    session it was made on and the [timeout] argument it passed; it is the
    [posts tr]-th call of the dispatch. *)
Definition session_post (s : Session) (url : string) (json : pyval)
           (timeout : option (Z * Z)) : M Response :=
  fun tr =>
    let tr' := tr ++ [SessionPost s url json timeout] in
    match server w url json (posts tr) with
    | Responds r => (Ok r, tr')
    | PostRaises e => (Raise e, tr')
    end.

Definition attempt_of (current_try : nat) : fstring :=
  [Fmt (PInt (Z.of_nat (current_try + 1))); Txt "/"; Fmt (PInt (Z.of_nat max_retries))].

(** The four lines that close the [else] branch and each handler:
    [if current_try < max_retries - 1: st.warning(...); time.sleep(retry_delay)]
    and then [current_try += 1]. *)
Definition wait_and_count (current_try : nat) : M ctl :=
  (if current_try <? max_retries - 1 then
     emit (StWarning [Txt "Retrying in "; Fmt (PInt retry_delay); Txt " seconds..."]) ;;
     emit (TimeSleep retry_delay)
   else ret tt) ;;
  ret (Next (current_try + 1)).

(** The body of the [try] (lines 99-133). *)
Definition try_body (payload : pyval) (endpoint : string) (current_try : nat) : M ctl :=
  emit (StSpinner ([Txt "Attempt "] ++ attempt_of current_try
                     ++ [Txt ": Sending request to API..."])) ;;
  let session := mkSession (Some (60, 300)%Z) in
  emit TimeTime ;;
  response <- session_post session endpoint payload None ;;
  emit TimeTime ;;
  emit (StExpander "View Response Details") ;;
  emit (StWrite [Txt "Status Code: "; Fmt (PInt (status_code response))]) ;;
  emit (StWrite [Txt "Response Time: "; FmtElapsed; Txt " seconds"]) ;;
  emit (StWrite [Txt "Response Headers:"]) ;;
  emit (StJson (headers_dict response)) ;;
  (if (status_code response =? 200)%Z then
     emit (StWrite [Txt "Response Body:"]) ;;
     body <- response_json response ;;
     emit (StJson body)
   else
     emit (StError [Txt "Error Response: "; Fmt (PStr (text response))])) ;;
  if (status_code response =? 200)%Z then
    result <- response_json response ;;
    emit (StSuccess [Txt "Analysis completed successfully!"]) ;;
    analysis <- py_get result "analysis" PNone ;;
    ret (Return analysis)
  else
    body <- response_json response ;;
    error_msg <- py_get body "error" (PStr "Unknown error occurred") ;;
    emit (StError [Txt "Error: "; Fmt error_msg]) ;;
    wait_and_count current_try.

(** The three [except] clauses (lines 135-154). *)
Definition on_timeout (current_try : nat) (e : exn) : M ctl :=
  emit (StError ([Txt "Request timed out on attempt "] ++ attempt_of current_try)) ;;
  wait_and_count current_try.

Definition on_request_exception (current_try : nat) (e : exn) : M ctl :=
  emit (StError ([Txt "Request failed on attempt "] ++ attempt_of current_try
                   ++ [Txt ": "; FmtExn e])) ;;
  wait_and_count current_try.

Definition on_exception (current_try : nat) (e : exn) : M ctl :=
  emit (StError ([Txt "An unexpected error occurred on attempt "] ++ attempt_of current_try
                   ++ [Txt ": "; FmtExn e])) ;;
  wait_and_count current_try.

(** One iteration of the [while] loop: the whole [try] statement. *)
Definition attempt (payload : pyval) (endpoint : string) (current_try : nat) : M ctl :=
  try_except (try_body payload endpoint current_try)
    [ (is_Timeout, on_timeout current_try);
      (is_RequestException, on_request_exception current_try);
      (is_Exception, on_exception current_try) ].

Definition init (payload : pyval) (approach_name : string) : state :=
  mkState 0
          [ StSubheader [Txt "Analysis Process - "; Fmt (PStr approach_name)];
            StExpander "View Request Details";
            StJson payload ]
          Running.

(** One evaluation of the loop test, followed by one iteration or by the
    two lines after the loop. *)
Definition step (payload : pyval) (endpoint : string) (s : state) : state :=
  match st s with
  | Running =>
      if current_try s <? max_retries then
        match attempt payload endpoint (current_try s) (trace s) with
        | (Ok (Return v), tr) => mkState (current_try s) tr (Returned v)
        | (Ok (Next c), tr) => mkState c tr Running
        | (Raise e, tr) => mkState (current_try s) tr (Raised e)
        end
      else
        mkState (current_try s)
                (trace s ++ [StError [Txt "All retry attempts failed. Please try again later."]])
                (Returned PNone)
  | _ => s
  end.

Fixpoint run (fuel : nat) (payload : pyval) (endpoint : string) (s : state) : state :=
  match fuel with
  | O => s
  | S fuel' => run fuel' payload endpoint (step payload endpoint s)
  end.

(** [analyze_resumes(payload, endpoint, approach_name)], run for at most
    [fuel] evaluations of the loop test.  A final state still [Running]
    means the fuel ran out. *)
Definition analyze_resumes (fuel : nat) (payload : pyval) (endpoint : string)
           (approach_name : string) : state :=
  run fuel payload endpoint (init payload approach_name).

End Dispatcher.

(** ** The three places that build a payload and dispatch it
    (app.py, lines 208-242, 255-277, 323-341) *)

Definition approach1_url : string := "https://approach1.onrender.com/analyze".
Definition approach2_url : string := "https://approach2.onrender.com/analyze".

Record UploadedFile : Type := mkUploadedFile {
  file_type : string;
  file_bytes : list Byte.byte
}.

(** What one run of the script reads from the page and the disk. *)
Record Inputs : Type := mkInputs {
  images : list string;                      (* load_images_from_directory() *)
  read_file : string -> option (list Byte.byte);   (* None: open/read raises *)
  analyze_default_clicked : bool;            (* st.button("Analyze Default Resumes") *)
  image_requirements : string;               (* text area of tab 1 *)
  uploaded_files : list UploadedFile;        (* st.file_uploader(...) *)
  ocr_files : list string;                   (* load_ocr_files() *)
  load_json : string -> option pyval;        (* None: open/json.load raises *)
  analyze_ocr_clicked : bool;                (* st.button("Analyze OCR Data") *)
  ocr_requirements : string                  (* text area of tab 2 *)
}.

(** A call [analyze_resumes(payload, endpoint, approach_name)]. *)
Record call : Type := mkCall {
  call_payload : pyval;
  call_endpoint : string;
  call_name : string
}.

Definition nonempty {A} (l : list A) : bool :=
  match l with [] => false | _ :: _ => true end.

Section App.

Variable format_value : pyval -> string.
(** [base64.b64encode(bytes).decode('utf-8')] *)
Variable b64encode : list Byte.byte -> string.
(** [os.path.splitext(path)[1][1:].lower()] *)
Variable ext_lower : string -> string.

Definition prompt_for (user_requirements : string) : pyval :=
  PStr (get_analysis_prompt format_value (PStr user_requirements)).

(** Lines 222-232: a file that cannot be read is reported and skipped. *)
Fixpoint base64_images (read : string -> option (list Byte.byte)) (paths : list string)
  : list pyval :=
  match paths with
  | [] => []
  | img_path :: rest =>
      match read img_path with
      | Some bytes =>
          PDict [ ("mime_type", PStr ("image/" ++ ext_lower img_path)%string);
                  ("data", PStr (b64encode bytes)) ]
            :: base64_images read rest
      | None => base64_images read rest
      end
  end.

(** Lines 208-242. *)
Definition default_images_flow (i : Inputs) : list call :=
  if nonempty (images i) then
    if analyze_default_clicked i then
      let encoded := base64_images (read_file i) (images i) in
      if nonempty encoded then
        let payload := PDict [ ("images", PList encoded);
                               ("prompt", prompt_for (image_requirements i)) ] in
        [mkCall payload approach1_url "Image-based Analysis"]
      else []
    else []
  else [].

(** Lines 255-277. *)
Definition upload_flow (i : Inputs) : list call :=
  if nonempty (uploaded_files i) then
    let encoded :=
      map (fun file => PDict [ ("mime_type", PStr (file_type file));
                               ("data", PStr (b64encode (file_bytes file))) ])
          (uploaded_files i) in
    let payload := PDict [ ("images", PList encoded);
                           ("prompt", prompt_for (image_requirements i)) ] in
    [mkCall payload approach1_url "Image-based Analysis"]
  else [].

(** Lines 325-331. *)
Fixpoint ocr_records (load : string -> option pyval) (paths : list string) : list pyval :=
  match paths with
  | [] => []
  | file_path :: rest =>
      match load file_path with
      | Some data => data :: ocr_records load rest
      | None => ocr_records load rest
      end
  end.

(** Lines 323-341. *)
Definition ocr_flow (i : Inputs) : list call :=
  if analyze_ocr_clicked i then
    let ocr_list := ocr_records (load_json i) (ocr_files i) in
    if nonempty ocr_list then
      let payload := PDict [ ("ocr_list", PList ocr_list);
                             ("prompt", prompt_for (ocr_requirements i)) ] in
      [mkCall payload approach2_url "OCR-based Analysis"]
    else []
  else [].

(** The calls of one run of the script, in order. *)
Definition dispatch_calls (i : Inputs) : list call :=
  default_images_flow i ++ upload_flow i ++ ocr_flow i.

Definition run_app (w : World) (fuel : nat) (i : Inputs) : list state :=
  map (fun c => analyze_resumes w fuel (call_payload c) (call_endpoint c) (call_name c))
      (dispatch_calls i).

End App.

(** ** Vocabulary of the statements *)

(** The POST every attempt makes. *)
Definition the_post (payload : pyval) (endpoint : string) : event :=
  SessionPost (mkSession (Some (60, 300)%Z)) endpoint payload None.

(** What an attempt comes to, given what its POST meets. *)
Inductive verdict : Type :=
| Succeeds (analysis : pyval)
| Retries
| Propagates (e : exn).

Definition classify (o : post_outcome) : verdict :=
  match o with
  | Responds r =>
      if (status_code r =? 200)%Z then
        match json_body r with
        | Some (PDict d) => Succeeds (dict_get d "analysis" PNone)
        | _ => Retries
        end
      else Retries
  | PostRaises e => if is_Exception e then Retries else Propagates e
  end.

Definition retried (o : post_outcome) : bool :=
  match classify o with Retries => true | _ => false end.

(** The delay that follows a failed attempt made with the counter at [c]. *)
Definition delay_after (c : nat) : list event :=
  if c <? max_retries - 1 then [TimeSleep retry_delay] else [].

(** Network calls and delays of [k] failed attempts in a row, the first one
    made with the counter at [c]. *)
Fixpoint retry_io (post : event) (c k : nat) : list event :=
  match k with
  | O => []
  | S k' => post :: delay_after c ++ retry_io post (S c) k'
  end.

(** What holds of every state the loop reaches. *)
Definition inv (payload : pyval) (endpoint : string) (s : state) : Prop :=
  current_try s <= max_retries
  /\ posts (trace s) <= max_retries
  /\ match st s with
     | Running => posts (trace s) = current_try s
     | _ => True
     end
  /\ filter is_post (trace s) = repeat (the_post payload endpoint) (posts (trace s)).

(** An outcome of one of the kinds the error taxonomy lists: a response, or
    an exception the handlers name. *)
Definition listed_outcome (o : post_outcome) : bool :=
  match o with
  | Responds _ => true
  | PostRaises e => is_Exception e
  end.

(** What an attempt shows and does up to the end of the headers, when its
    POST is answered by [r]. *)
Definition response_details (payload : pyval) (endpoint : string) (c : nat) (r : Response)
  : list event :=
  [ StSpinner ([Txt "Attempt "] ++ attempt_of c ++ [Txt ": Sending request to API..."]);
    TimeTime;
    the_post payload endpoint;
    TimeTime;
    StExpander "View Response Details";
    StWrite [Txt "Status Code: "; Fmt (PInt (status_code r))];
    StWrite [Txt "Response Time: "; FmtElapsed; Txt " seconds"];
    StWrite [Txt "Response Headers:"];
    StJson (headers_dict r) ].

(** The warning and the delay that close a failed attempt. *)
Definition wait_events (c : nat) : list event :=
  if c <? max_retries - 1
  then [ StWarning [Txt "Retrying in "; Fmt (PInt retry_delay); Txt " seconds..."];
         TimeSleep retry_delay ]
  else [].

(** The report of the last handler for a [.get] on a value that is no dict. *)
Definition no_get_report (c : nat) (v : pyval) : event :=
  StError ([Txt "An unexpected error occurred on attempt "] ++ attempt_of c
             ++ [Txt ": ";
                 FmtExn (AttributeError
                           ("'" ++ type_name v ++ "' object has no attribute 'get'")%string)]).

(** The line [st.error(f"Error: {error_msg}")] of the [else] branch. *)
Definition is_http_error_report (e : event) : bool :=
  match e with
  | StError (Txt s :: _) => String.eqb s "Error: "
  | _ => false
  end.

(** The report of the handler that catches a body that does not parse. *)
Definition decode_failure_report (w : World) (c : nat) (r : Response) : event :=
  StError ([Txt (if json_error_is_request_exception w
                 then "Request failed on attempt "
                 else "An unexpected error occurred on attempt ")]
             ++ attempt_of c ++ [Txt ": "; FmtExn (JSONDecodeError w (text r))]).

(** *** The two sentences of the specification that the code does not follow,
    as the specification words them *)

(** "the returned result equals the body's analysis field (or empty if absent)" *)
Definition spec_analysis_field (body : pyval) : pyval :=
  match body with
  | PDict d => dict_get d "analysis" PNone
  | _ => PNone
  end.

(** "If any attempt returns status 200 with a parseable body, dispatch returns
    immediately on that attempt without further calls", for attempt [k]
    coming after [k] retried ones. *)
Definition spec_returns_on_parseable_200 (w : World) (payload : pyval)
           (endpoint approach_name : string) : Prop :=
  forall k r body extra,
    k < max_retries ->
    (forall j, j < k -> retried (server w endpoint payload j) = true) ->
    server w endpoint payload k = Responds r ->
    status_code r = 200%Z ->
    json_body r = Some body ->
    let s := analyze_resumes w (S max_retries + extra) payload endpoint approach_name in
    st s = Returned (spec_analysis_field body) /\ posts (trace s) = S k.

(** "extract an error field from the JSON body if present, else a generic
    message", and "a non-200 response whose body is not valid JSON: error
    message extraction falls back to raw response text". *)
Definition spec_error_msg (r : Response) : pyval :=
  match json_body r with
  | Some (PDict d) => dict_get d "error" (PStr "Unknown error occurred")
  | Some _ => PStr "Unknown error occurred"
  | None => PStr (text r)
  end.

Definition spec_reports_http_error (w : World) (payload : pyval) (endpoint : string)
           (s : state) : Prop :=
  forall r,
    st s = Running ->
    current_try s < max_retries ->
    server w endpoint payload (posts (trace s)) = Responds r ->
    status_code r <> 200%Z ->
    In (StError [Txt "Error: "; Fmt (spec_error_msg r)]) (trace (step w payload endpoint s)).

(** The result of a dispatch that returned from inside the loop: the
    [analysis] entry of the JSON object some attempt received with status
    200. *)
Definition extracted_analysis (w : World) (payload : pyval) (endpoint : string)
           (v : pyval) : Prop :=
  exists k r d,
    k < max_retries
    /\ server w endpoint payload k = Responds r
    /\ status_code r = 200%Z
    /\ json_body r = Some (PDict d)
    /\ v = dict_get d "analysis" PNone.

(** Where the final status of a reachable state comes from. *)
Definition accounted (w : World) (payload : pyval) (endpoint : string) (s : state) : Prop :=
  match st s with
  | Running => True
  | Returned v => v = PNone \/ extracted_analysis w payload endpoint v
  | Raised e =>
      exists k, k < max_retries
                /\ server w endpoint payload k = PostRaises e
                /\ is_Exception e = false
  end.

(** ** Sample worlds and inputs *)

Definition sample_payload : pyval :=
  PDict [ ("ocr_list", PList [PDict [("text", PStr "Jane Doe, engineer")]]);
          ("prompt", PStr "Rank the candidates") ].

Definition quoted (s : string) : string :=
  (String "034"%char s ++ String "034"%char EmptyString)%string.

Definition constant_world (o : post_outcome) : World :=
  mkWorld true (fun _ => "Expecting value: line 1 column 1 (char 0)") (fun _ _ _ => o).

(** Status 200 and the body of the documented response format. *)
Definition response_ok : Response :=
  mkResponse 200 [("Content-Type", "application/json")]
             ("{" ++ quoted "analysis" ++ ": [{" ++ quoted "Candidate ID" ++ ": "
                  ++ quoted "001" ++ "}]}")%string
             (Some (PDict [("analysis", PList [PDict [("Candidate ID", PStr "001")]])])).

(** Status 200 and a JSON array for a body. *)
Definition response_ok_array : Response :=
  mkResponse 200 [("Content-Type", "application/json")] "[]" (Some (PList [])).

(** Status 200 and a body that is not JSON. *)
Definition response_ok_html : Response :=
  mkResponse 200 [("Content-Type", "text/html")] "<html>Waking up</html>" None.

(** Status 500 and the documented error format. *)
Definition response_error : Response :=
  mkResponse 500 [("Content-Type", "application/json")]
             ("{" ++ quoted "error" ++ ": " ++ quoted "bad payload" ++ "}")%string
             (Some (PDict [("error", PStr "bad payload")])).

(** Status 502 and a body that is not JSON. *)
Definition response_bad_gateway : Response :=
  mkResponse 502 [("Content-Type", "text/html")] "Bad Gateway" None.

(** Status 500 and a JSON array for a body. *)
Definition response_error_array : Response :=
  mkResponse 500 [("Content-Type", "application/json")] "[]" (Some (PList [])).

Definition read_timeout : exn := mkExn ClsTimeout "Read timed out.".

(** Two failures, then the documented success. *)
Definition recovering_world : World :=
  mkWorld true (fun _ => "Expecting value: line 1 column 1 (char 0)")
          (fun _ _ k => match k with
                        | 0 => PostRaises read_timeout
                        | 1 => Responds response_bad_gateway
                        | _ => Responds response_ok
                        end).

Definition sample_inputs : Inputs :=
  mkInputs [] (fun _ => None) false "5+ years of Python"
           []
           ["/app/OCR/resume1.json"; "/app/OCR/broken.json"]
           (fun path => if String.eqb path "/app/OCR/resume1.json"
                        then Some (PDict [("text", PStr "Jane Doe, engineer")])
                        else None)
           true "5+ years of Python".

(** ** Proof steps shared by the lemmas on [attempt] *)

(** Unfolds one pass through the [try] statement down to the trace. *)
Ltac run_monad :=
  unfold attempt, try_except, try_body, on_timeout, on_request_exception, on_exception,
    wait_and_count, session_post, response_json, py_get, bind, ret, raise, emit,
    dispatch_handlers, JSONDecodeError, AttributeError,
    is_Timeout, is_RequestException, is_Exception in *;
  simpl in *.

(** Closes an equation between the trace of an attempt and its description,
    by cases on the class of the decode error and on the delay. *)
Ltac close_trace w c :=
  unfold response_details, wait_events, decode_failure_report, no_get_report,
    the_post, JSONDecodeError, AttributeError;
  change (max_retries - 1) with 2;
  destruct (json_error_is_request_exception w); destruct (c <? 2);
  simpl; repeat rewrite <- app_assoc; reflexivity.

(** ** Sample data loaders (app.py, lines 11-14 and 159-173) *)

Definition starts_with_slash (s : string) : bool :=
  match s with
  | String c _ => Ascii.eqb c "/"
  | EmptyString => false
  end.

Fixpoint ends_with_slash (s : string) : bool :=
  match s with
  | EmptyString => false
  | String c EmptyString => Ascii.eqb c "/"
  | String _ s' => ends_with_slash s'
  end.

(** [os.path.join(a, p)] of posixpath: an absolute [p] replaces [a]; a
    separator is added unless [a] is empty or ends with one. *)
Definition path_join (a p : string) : string :=
  if starts_with_slash p then p
  else match a with
       | EmptyString => p
       | _ => if ends_with_slash a then (a ++ p)%string else (a ++ "/" ++ p)%string
       end.

Definition IMAGES_DIR (BASE_DIR : string) : string := path_join BASE_DIR "images".
Definition OCR_DIR (BASE_DIR : string) : string := path_join BASE_DIR "OCR".

(** [sorted(l)] on a list of [str]: ascending in the order of [str], which
    compares code point by code point, as [String.leb] compares the encoded
    bytes.  The order is total and antisymmetric, so the sorted list does not
    depend on the algorithm; insertion is used here. *)
Fixpoint insert_sorted (x : string) (l : list string) : list string :=
  match l with
  | [] => [x]
  | y :: l' => if String.leb x y then x :: l else y :: insert_sorted x l'
  end.

Definition sorted (l : list string) : list string := fold_right insert_sorted [] l.

Definition supported_formats : list string := ["jpg"; "jpeg"; "png"; "webp"; "heic"].

Section Loaders.

(** [glob.glob(pattern)]: the paths the file system holds for a pattern, in
    the order the file system lists them. *)
Variable glob : string -> list string.
Variable BASE_DIR : string.

Definition image_pattern (ext : string) : string :=
  path_join (IMAGES_DIR BASE_DIR) ("*." ++ ext)%string.

(** Lines 159-168. *)
Definition load_images_from_directory : list string :=
  sorted (flat_map (fun ext => glob (image_pattern ext)) supported_formats).

(** Lines 170-173. *)
Definition load_ocr_files : list string :=
  sorted (glob (path_join (OCR_DIR BASE_DIR) "*.json")).

(** The inputs of a run whose sample files are those the loaders find
    (lines 206 and 307). *)
Definition with_sample_files (i : Inputs) : Inputs :=
  mkInputs load_images_from_directory (read_file i) (analyze_default_clicked i)
           (image_requirements i) (uploaded_files i)
           load_ocr_files (load_json i) (analyze_ocr_clicked i) (ocr_requirements i).

End Loaders.

(** ** The gallery of sample resumes (lines 209-216) *)

(** [enumerate(l)] *)
Definition enumerate {A} (l : list A) : list (nat * A) := combine (seq 0 (length l)) l.

(** [cols = st.columns(3)] and [cols[k]]: [None] stands for the IndexError of
    an index outside the list. *)
Definition cols : list nat := [0; 1; 2].

Definition gallery (image_paths : list string) : list (option nat * string) :=
  map (fun ip => (nth_error cols (fst ip mod 3), snd ip)) (enumerate image_paths).

(** The images shown in column [k], top to bottom. *)
Definition column_images (k : nat) (image_paths : list string) : list string :=
  map snd (filter (fun cp => match fst cp with
                             | Some k' => k' =? k
                             | None => false
                             end)
                  (gallery image_paths)).

(** ** What the upload flow shows after the dispatch (lines 274-277) *)

(** [if result: st.subheader("Analysis Results"); st.json(result)], on the
    state the dispatcher ended in; nothing is reached when it raised. *)
Definition shown_after_upload (s : state) : list event :=
  match st s with
  | Returned result =>
      if truthy result
      then [StSubheader [Txt "Analysis Results"]; StJson result]
      else []
  | _ => []
  end.

(** ** More vocabulary *)

(** The two lines after the loop show this. *)
Definition failure_notice : event :=
  StError [Txt "All retry attempts failed. Please try again later."].

Definition is_failure_notice (e : event) : bool :=
  match e with
  | StError [Txt s] => String.eqb s "All retry attempts failed. Please try again later."
  | _ => false
  end.

Definition is_spinner (e : event) : bool :=
  match e with StSpinner _ => true | _ => false end.

(** The spinner of the attempt made with the counter at [c]. *)
Definition attempt_label (c : nat) : event :=
  StSpinner ([Txt "Attempt "] ++ attempt_of c ++ [Txt ": Sending request to API..."]).

(** A call, then [n] times a delay and a call. *)
Definition alternating (post : event) (n : nat) : list event :=
  post :: concat (repeat [TimeSleep retry_delay; post] n).

(** Calls and delays of a reachable state. *)
Definition io_shape (payload : pyval) (endpoint : string) (s : state) : Prop :=
  match st s with
  | Running => io (trace s) = retry_io (the_post payload endpoint) 0 (current_try s)
  | _ => exists n, n <= 2 /\ io (trace s) = alternating (the_post payload endpoint) n
  end.

(** How a dispatch ends, read off what the attempts meet from the [k]-th on,
    with [n] attempts left: final status, number of POSTs, final counter. *)
Fixpoint verdict_from (w : World) (payload : pyval) (endpoint : string) (k n : nat)
  : status * nat * nat :=
  match n with
  | O => (Returned PNone, k, k)
  | S n' =>
      match classify (server w endpoint payload k) with
      | Succeeds a => (Returned a, S k, k)
      | Propagates e => (Raised e, S k, k)
      | Retries => verdict_from w payload endpoint (S k) n'
      end
  end.

Definition expected_end (w : World) (payload : pyval) (endpoint : string)
  : status * nat * nat :=
  verdict_from w payload endpoint 0 max_retries.

(** Whether the three attempts of a dispatch all fail and are retried. *)
Definition all_retried (w : World) (payload : pyval) (endpoint : string) : bool :=
  forallb (fun k => retried (server w endpoint payload k)) (seq 0 max_retries).

(** The failure notice in the trace of a reachable state. *)
Definition notice_shape (s : state) : Prop :=
  filter is_failure_notice (trace s)
  = match st s with
    | Running => []
    | _ => if current_try s =? max_retries then [failure_notice] else []
    end.

(** The spinners in the trace of a reachable state. *)
Definition labels_shape (s : state) : Prop :=
  filter is_spinner (trace s) = map attempt_label (seq 0 (posts (trace s))).

(** A server that interrupts the second attempt. *)
Definition interrupted_world : World :=
  mkWorld true (fun _ => "Expecting value: line 1 column 1 (char 0)")
          (fun _ _ k => match k with
                        | 0 => Responds response_error
                        | _ => PostRaises (mkExn ClsBaseException "KeyboardInterrupt")
                        end).

(** A directory listed in two different orders. *)
Definition sample_glob (pattern : string) : list string :=
  if String.eqb pattern "/app/images/*.png" then ["/app/images/b.png"; "/app/images/a.png"]
  else if String.eqb pattern "/app/images/*.jpg" then ["/app/images/c.jpg"]
  else if String.eqb pattern "/app/OCR/*.json" then ["/app/OCR/r2.json"; "/app/OCR/r1.json"]
  else [].

Definition sample_glob' (pattern : string) : list string :=
  if String.eqb pattern "/app/images/*.png" then ["/app/images/a.png"; "/app/images/b.png"]
  else if String.eqb pattern "/app/images/*.jpg" then ["/app/images/c.jpg"]
  else if String.eqb pattern "/app/OCR/*.json" then ["/app/OCR/r1.json"; "/app/OCR/r2.json"]
  else [].

Definition sample_upload : Inputs :=
  mkInputs ["/app/images/a.png"; "/app/images/missing.png"]
           (fun path => if String.eqb path "/app/images/a.png"
                        then Some [Byte.x89; Byte.x50; Byte.x4e; Byte.x47]
                        else None)
           true "AWS experience"
           [mkUploadedFile "image/jpeg" [Byte.xff; Byte.xd8]]
           [] (fun _ => None) true EmptyString.

Definition is_some {A} (o : option A) : bool :=
  match o with Some _ => true | None => false end.

(** [v[k]] for a key the dict holds. *)
Definition entry (k : string) (v : pyval) : pyval :=
  match v with
  | PDict d => dict_get d k PNone
  | _ => PNone
  end.

(** A call that sends images to the first endpoint with the prompt of the
    first tab, or OCR records to the second with the prompt of the second. *)
Definition well_routed (format_value : pyval -> string) (i : Inputs) (c : call) : Prop :=
  (has_key (call_payload c) "images" = true
   /\ has_key (call_payload c) "ocr_list" = false
   /\ call_endpoint c = approach1_url
   /\ call_name c = "Image-based Analysis"
   /\ entry "prompt" (call_payload c)
      = PStr (get_analysis_prompt format_value (PStr (image_requirements i))))
  \/ (has_key (call_payload c) "ocr_list" = true
      /\ has_key (call_payload c) "images" = false
      /\ call_endpoint c = approach2_url
      /\ call_name c = "OCR-based Analysis"
      /\ entry "prompt" (call_payload c)
         = PStr (get_analysis_prompt format_value (PStr (ocr_requirements i)))).

(** The order of [str], as a relation. *)
Definition str_le (a b : string) : Prop := String.leb a b = true.

(** * Properties *)

(** ** Traces *)

Lemma posts_app (tr1 tr2 : list event) : posts (tr1 ++ tr2) = posts tr1 + posts tr2.
Proof. unfold posts. now rewrite filter_app, length_app. Qed.

Lemma posts_snoc (tr : list event) (e : event) :
  is_post e = false -> posts (tr ++ [e]) = posts tr.
Proof. intros H. rewrite posts_app. unfold posts at 2. simpl. rewrite H. simpl. lia. Qed.

Lemma io_app (tr1 tr2 : list event) : io (tr1 ++ tr2) = io tr1 ++ io tr2.
Proof. apply filter_app. Qed.

Lemma posts_io (tr : list event) : posts (io tr) = posts tr.
Proof.
  unfold posts, io. induction tr as [|e tr IH]; [reflexivity|].
  destruct e; simpl; auto.
Qed.

Lemma sleeps_io (tr : list event) : sleeps (io tr) = sleeps tr.
Proof.
  unfold sleeps, io. induction tr as [|e tr IH]; [reflexivity|].
  destruct e; simpl; auto. now rewrite IH.
Qed.

Lemma post_events_io (tr : list event) : filter is_post (io tr) = filter is_post tr.
Proof.
  unfold io. induction tr as [|e tr IH]; [reflexivity|].
  destruct e; simpl; auto. now rewrite IH.
Qed.

(** ** One attempt *)

(** What an attempt returns and which calls and delays it adds depends only
    on the verdict for what its POST meets. *)
Lemma attempt_verdict (w : World) (payload : pyval) (endpoint : string)
      (c : nat) (tr : list event) :
  let v := classify (server w endpoint payload (posts tr)) in
  let res := attempt w payload endpoint c tr in
  fst res = match v with
            | Succeeds a => Ok (Return a)
            | Retries => Ok (Next (c + 1))
            | Propagates e => Raise e
            end
  /\ io (snd res) = io tr ++ the_post payload endpoint
                       :: match v with Retries => delay_after c | _ => [] end.
Proof.
  unfold delay_after, the_post. run_monad.
  rewrite !posts_snoc by reflexivity.
  change (max_retries - 1) with 2.
  destruct (c <? 2);
    (destruct (server w endpoint payload (posts tr)) as [r|[cls msg]]; simpl;
     [ destruct (status_code r =? 200)%Z; simpl;
       destruct (json_body r) as [[| | | | | |d]|]; simpl;
       try (destruct (json_error_is_request_exception w); simpl)
     | destruct cls; simpl ]);
    (split;
     [ reflexivity
     | rewrite !io_app; simpl; repeat rewrite <- app_assoc; simpl;
       rewrite ?app_nil_r; reflexivity ]).
Qed.

(** ** One step of the loop *)

Lemma step_attempt (w : World) (payload : pyval) (endpoint : string) (s : state) :
  st s = Running ->
  current_try s < max_retries ->
  let v := classify (server w endpoint payload (posts (trace s))) in
  let s' := step w payload endpoint s in
  st s' = match v with
          | Succeeds a => Returned a
          | Retries => Running
          | Propagates e => Raised e
          end
  /\ current_try s' = match v with
                      | Retries => S (current_try s)
                      | _ => current_try s
                      end
  /\ io (trace s') = io (trace s) ++ the_post payload endpoint
                        :: match v with Retries => delay_after (current_try s) | _ => [] end.
Proof.
  intros Hrun Hlt. unfold step. rewrite Hrun.
  apply Nat.ltb_lt in Hlt. rewrite Hlt.
  destruct (attempt_verdict w payload endpoint (current_try s) (trace s)) as [Hres Hio].
  destruct (attempt w payload endpoint (current_try s) (trace s)) as [o tr'].
  simpl in Hres, Hio. subst o.
  destruct (classify (server w endpoint payload (posts (trace s)))); simpl;
    repeat split; auto; lia.
Qed.

Lemma step_exhausted (w : World) (payload : pyval) (endpoint : string) (s : state) :
  st s = Running ->
  max_retries <= current_try s ->
  step w payload endpoint s =
  mkState (current_try s)
          (trace s ++ [StError [Txt "All retry attempts failed. Please try again later."]])
          (Returned PNone).
Proof.
  intros Hrun Hge. unfold step. rewrite Hrun.
  apply Nat.ltb_ge in Hge. now rewrite Hge.
Qed.

Lemma step_halted (w : World) (payload : pyval) (endpoint : string) (s : state) :
  st s <> Running -> step w payload endpoint s = s.
Proof. intros H. unfold step. destruct (st s); congruence. Qed.

(** ** Runs *)

Lemma run_halted (w : World) (payload : pyval) (endpoint : string) (n : nat) (s : state) :
  st s <> Running -> run w n payload endpoint s = s.
Proof.
  induction n as [|n IH]; intros H; simpl; [reflexivity|].
  rewrite step_halted by assumption. auto.
Qed.

Lemma run_add (w : World) (payload : pyval) (endpoint : string) (n m : nat) (s : state) :
  run w (n + m) payload endpoint s = run w m payload endpoint (run w n payload endpoint s).
Proof. revert s. induction n as [|n IH]; intros s; simpl; auto. Qed.

Lemma run_succ (w : World) (payload : pyval) (endpoint : string) (n : nat) (s : state) :
  run w (S n) payload endpoint s = step w payload endpoint (run w n payload endpoint s).
Proof. replace (S n) with (n + 1) by lia. now rewrite run_add. Qed.

Lemma run_stable (w : World) (payload : pyval) (endpoint : string) (n m : nat) (s : state) :
  st (run w n payload endpoint s) <> Running ->
  n <= m ->
  run w m payload endpoint s = run w n payload endpoint s.
Proof.
  intros H Hle. replace m with (n + (m - n)) by lia.
  rewrite run_add. now apply run_halted.
Qed.

(** ** The invariant *)

Lemma post_events_posts (tr : list event) : length (filter is_post tr) = posts tr.
Proof. reflexivity. Qed.

Lemma filter_no_post (d : list event) :
  Forall (fun e => is_post e = false) d -> filter is_post d = [].
Proof.
  induction 1 as [|e d He Hd IH]; simpl; [reflexivity|]. now rewrite He.
Qed.

Lemma io_step_posts (payload : pyval) (endpoint : string) (tr tr' : list event)
      (d : list event) :
  io tr' = io tr ++ the_post payload endpoint :: d ->
  Forall (fun e => is_post e = false) d ->
  posts tr' = S (posts tr)
  /\ filter is_post tr' = filter is_post tr ++ [the_post payload endpoint].
Proof.
  intros Hio Hd.
  assert (Hf : filter is_post d = []) by now apply filter_no_post.
  assert (Hp : filter is_post tr' = filter is_post tr ++ [the_post payload endpoint]).
  { rewrite <- (post_events_io tr'), Hio, filter_app, post_events_io.
    simpl. now rewrite Hf. }
  split; [|exact Hp].
  unfold posts. rewrite Hp, length_app. simpl. lia.
Qed.

Lemma delay_after_no_post (c : nat) : Forall (fun e => is_post e = false) (delay_after c).
Proof. unfold delay_after. destruct (c <? max_retries - 1); repeat constructor. Qed.

Lemma repeat_snoc {A} (x : A) (n : nat) : repeat x n ++ [x] = repeat x (S n).
Proof. induction n as [|n IH]; simpl; [reflexivity|]. now rewrite IH. Qed.

Lemma inv_init (payload : pyval) (endpoint approach_name : string) :
  inv payload endpoint (init payload approach_name).
Proof. unfold inv, init, max_retries; simpl. repeat split; auto; unfold posts; simpl; lia. Qed.

Lemma inv_step (w : World) (payload : pyval) (endpoint : string) (s : state) :
  inv payload endpoint s -> inv payload endpoint (step w payload endpoint s).
Proof.
  intros (Hc & Hp & Hst & Hposts).
  destruct (st s) eqn:Hrun; try (rewrite step_halted; [|congruence];
                                unfold inv; rewrite Hrun; auto).
  destruct (Nat.lt_ge_cases (current_try s) max_retries) as [Hlt|Hge].
  - destruct (step_attempt w payload endpoint s Hrun Hlt) as (Hs' & Hc' & Hio).
    set (s' := step w payload endpoint s) in *.
    assert (Hd : Forall (fun e => is_post e = false)
                   match classify (server w endpoint payload (posts (trace s))) with
                   | Retries => delay_after (current_try s)
                   | _ => []
                   end).
    { destruct (classify _); auto using delay_after_no_post. }
    destruct (io_step_posts _ _ _ _ _ Hio Hd) as [Hn Hf].
    unfold inv. rewrite Hs', Hc', Hn, Hf, Hposts, repeat_snoc.
    destruct (classify (server w endpoint payload (posts (trace s))));
      repeat split; auto; lia.
  - rewrite step_exhausted by assumption. unfold inv; simpl.
    rewrite posts_snoc by reflexivity. rewrite filter_app. simpl.
    rewrite app_nil_r. auto.
Qed.

Lemma inv_run (w : World) (payload : pyval) (endpoint : string) (n : nat) (s : state) :
  inv payload endpoint s -> inv payload endpoint (run w n payload endpoint s).
Proof.
  revert s. induction n as [|n IH]; intros s H; simpl; auto using inv_step.
Qed.

(** The loop test is evaluated at most [max_retries + 1] times. *)
Lemma run_halts (w : World) (payload : pyval) (endpoint : string) (n : nat) (s : state) :
  inv payload endpoint s ->
  S max_retries <= n + current_try s ->
  st (run w n payload endpoint s) <> Running.
Proof.
  revert s. induction n as [|n IH]; intros s Hinv Hn; simpl.
  - destruct Hinv as (Hc & _). lia.
  - destruct (st s) eqn:Hrun;
      try (rewrite step_halted, run_halted; congruence).
    destruct (Nat.lt_ge_cases (current_try s) max_retries) as [Hlt|Hge].
    + destruct (step_attempt w payload endpoint s Hrun Hlt) as (Hs' & Hc' & _).
      destruct (classify (server w endpoint payload (posts (trace s)))).
      * rewrite run_halted; rewrite Hs'; congruence.
      * apply IH; [now apply inv_step | rewrite Hc'; lia].
      * rewrite run_halted; rewrite Hs'; congruence.
    + rewrite step_exhausted by assumption. rewrite run_halted; simpl; congruence.
Qed.

(** [k] failed attempts in a row. *)
Lemma run_retries (w : World) (payload : pyval) (endpoint : string) (k : nat) (s : state) :
  st s = Running ->
  posts (trace s) = current_try s ->
  current_try s + k <= max_retries ->
  (forall j, current_try s <= j < current_try s + k ->
             retried (server w endpoint payload j) = true) ->
  let s' := run w k payload endpoint s in
  st s' = Running
  /\ current_try s' = current_try s + k
  /\ posts (trace s') = current_try s + k
  /\ io (trace s') = io (trace s) ++ retry_io (the_post payload endpoint) (current_try s) k.
Proof.
  revert s. induction k as [|k IH]; intros s Hrun Hp Hle Hall; simpl.
  - rewrite Nat.add_0_r, app_nil_r. auto.
  - assert (Hlt : current_try s < max_retries) by lia.
    destruct (step_attempt w payload endpoint s Hrun Hlt) as (Hs' & Hc' & Hio).
    assert (Hret : retried (server w endpoint payload (posts (trace s))) = true)
      by (apply Hall; lia).
    unfold retried in Hret.
    destruct (classify (server w endpoint payload (posts (trace s)))); try discriminate.
    destruct (io_step_posts _ _ _ _ _ Hio (delay_after_no_post _)) as [Hn _].
    destruct (IH (step w payload endpoint s)) as (H1 & H2 & H3 & H4);
      try assumption; rewrite ?Hc'; try lia.
    { intros j Hj. apply Hall. lia. }
    rewrite H1, H2, H3, H4, Hc', Hio, <- app_assoc. simpl.
    repeat split; auto; lia.
Qed.

(** ** The retry bound *)

(** C1. One call of the dispatcher makes at most three network calls.  The
    counter [current_try] starts at 0; in every state the loop reaches it is
    at most [max_retries] = 3, and so is the number of POSTs made so far; one
    more evaluation of the loop either leaves the loop with the counter
    unchanged and at most one more POST, or, on an attempt that did not
    succeed, stays in it with the counter and the number of POSTs both
    incremented exactly once. *)
Theorem dispatch_bounded_by_max_retries (w : World) (payload : pyval)
        (endpoint approach_name : string) :
  max_retries = 3
  /\ current_try (init payload approach_name) = 0
  /\ forall fuel,
       let s := analyze_resumes w fuel payload endpoint approach_name in
       let s' := analyze_resumes w (S fuel) payload endpoint approach_name in
       posts (trace s) <= 3
       /\ current_try s <= max_retries
       /\ match st s, st s' with
          | Running, Running =>
              current_try s' = S (current_try s) /\ posts (trace s') = S (posts (trace s))
          | Running, _ =>
              current_try s' = current_try s /\ posts (trace s') <= S (posts (trace s))
          | _, _ => s' = s
          end.
Proof.
  split; [reflexivity|]. split; [reflexivity|].
  intros fuel s s'.
  assert (Hinv : inv payload endpoint s) by (apply inv_run, inv_init).
  assert (Hs' : s' = step w payload endpoint s) by apply run_succ.
  assert (Hinv' : inv payload endpoint s') by (rewrite Hs'; now apply inv_step).
  destruct Hinv as (Hc & Hp & Hst & _).
  split; [exact Hp|]. split; [exact Hc|].
  destruct (st s) eqn:Hrun; try (rewrite Hs'; apply step_halted; congruence).
  destruct (Nat.lt_ge_cases (current_try s) max_retries) as [Hlt|Hge].
  - destruct (step_attempt w payload endpoint s Hrun Hlt) as (Hst' & Hc' & Hio).
    rewrite <- Hs' in Hst', Hc', Hio.
    assert (Hn : posts (trace s') = S (posts (trace s))).
    { eapply io_step_posts; [exact Hio|].
      destruct (classify _); auto using delay_after_no_post. }
    rewrite Hst'.
    destruct (classify (server w endpoint payload (posts (trace s))));
      split; auto; lia.
  - rewrite Hs', step_exhausted by assumption. simpl.
    rewrite posts_snoc by reflexivity. split; auto.
Qed.

(** ** Exhaustion *)

(** Three failed attempts in a row: the dispatcher returns [None] after three
    POSTs and a delay after the first and the second. *)
Lemma all_retried_exhaust (w : World) (payload : pyval) (endpoint approach_name : string)
      (extra : nat) :
  (forall k, k < max_retries -> retried (server w endpoint payload k) = true) ->
  let s := analyze_resumes w (S max_retries + extra) payload endpoint approach_name in
  st s = Returned PNone
  /\ current_try s = max_retries
  /\ io (trace s) = retry_io (the_post payload endpoint) 0 max_retries.
Proof.
  intros Hall s.
  pose (s0 := init payload approach_name).
  destruct (run_retries w payload endpoint max_retries s0) as (H1 & H2 & H3 & H4);
    try reflexivity.
  { intros j Hj. apply Hall. simpl in Hj. lia. }
  set (s3 := run w max_retries payload endpoint s0) in *.
  assert (Hend : run w (S max_retries) payload endpoint s0
                 = mkState (current_try s3)
                     (trace s3 ++ [StError [Txt "All retry attempts failed. Please try again later."]])
                     (Returned PNone)).
  { rewrite run_succ. fold s3. apply step_exhausted; [assumption|]. rewrite H2. simpl. lia. }
  assert (Hs : s = run w (S max_retries) payload endpoint s0).
  { unfold s, analyze_resumes. fold s0. apply run_stable; [|lia].
    rewrite Hend. simpl. congruence. }
  rewrite Hs, Hend. simpl. rewrite io_app, H4. simpl. rewrite ?app_nil_r.
  repeat split; auto.
Qed.

Lemma http_error_retried (o : post_outcome) :
  (exists r, o = Responds r /\ status_code r <> 200%Z) -> retried o = true.
Proof.
  intros (r & -> & Hs). unfold retried, classify.
  apply Z.eqb_neq in Hs. now rewrite Hs.
Qed.

Lemma timeout_retried (o : post_outcome) :
  (exists e, o = PostRaises e /\ is_Timeout e = true) -> retried o = true.
Proof.
  intros (e & -> & He). unfold retried, classify, is_Exception, is_Timeout in *.
  destruct (exn_cls e); simpl; congruence.
Qed.

(** C3. When each of the three attempts completes with a status other than
    200, the dispatcher returns [None] after exactly three POSTs and exactly
    two delays of 5 seconds, one after the first attempt and one after the
    second, and none after the third. *)
Theorem three_http_errors_exhaust (w : World) (payload : pyval)
        (endpoint approach_name : string) (extra : nat) :
  (forall k, k < max_retries ->
             exists r, server w endpoint payload k = Responds r /\ status_code r <> 200%Z) ->
  let s := analyze_resumes w (S max_retries + extra) payload endpoint approach_name in
  st s = Returned PNone
  /\ posts (trace s) = 3
  /\ sleeps (trace s) = [TimeSleep 5; TimeSleep 5]
  /\ io (trace s) = [ the_post payload endpoint; TimeSleep 5;
                      the_post payload endpoint; TimeSleep 5;
                      the_post payload endpoint ].
Proof.
  intros Hall s.
  destruct (all_retried_exhaust w payload endpoint approach_name extra) as (Hst & _ & Hio).
  { intros k Hk. apply http_error_retried. auto. }
  fold s in Hst, Hio. simpl in Hio.
  rewrite <- (posts_io (trace s)), <- (sleeps_io (trace s)), Hio.
  repeat split; auto.
Qed.

Lemma three_http_errors_exhaust_witness :
  let s := analyze_resumes (constant_world (Responds response_error)) 4
                           sample_payload approach2_url "OCR-based Analysis" in
  st s = Returned PNone
  /\ posts (trace s) = 3
  /\ sleeps (trace s) = [TimeSleep 5; TimeSleep 5]
  /\ io (trace s) = [ the_post sample_payload approach2_url; TimeSleep 5;
                      the_post sample_payload approach2_url; TimeSleep 5;
                      the_post sample_payload approach2_url ].
Proof.
  apply (three_http_errors_exhaust (constant_world (Responds response_error))
           sample_payload approach2_url "OCR-based Analysis" 0).
  intros k _. exists response_error. split; [reflexivity | simpl; lia].
Defined.

(** C7. Three attempts that each raise a timeout and three attempts that each
    complete with a status other than 200 end alike: three POSTs, the same
    delays at the same places, the counter at [max_retries], and [None] for a
    result. *)
Theorem timeouts_like_http_errors (wt wh : World) (payload : pyval)
        (endpoint approach_name : string) (extra : nat) :
  (forall k, k < max_retries ->
             exists e, server wt endpoint payload k = PostRaises e /\ is_Timeout e = true) ->
  (forall k, k < max_retries ->
             exists r, server wh endpoint payload k = Responds r /\ status_code r <> 200%Z) ->
  let st_ := analyze_resumes wt (S max_retries + extra) payload endpoint approach_name in
  let sh := analyze_resumes wh (S max_retries + extra) payload endpoint approach_name in
  st st_ = Returned PNone
  /\ st sh = Returned PNone
  /\ posts (trace st_) = 3
  /\ posts (trace sh) = 3
  /\ current_try st_ = current_try sh
  /\ io (trace st_) = io (trace sh)
  /\ sleeps (trace st_) = [TimeSleep 5; TimeSleep 5].
Proof.
  intros Ht Hh st_ sh.
  destruct (all_retried_exhaust wt payload endpoint approach_name extra) as (Hst & Hct & Hiot).
  { intros k Hk. apply timeout_retried. auto. }
  destruct (all_retried_exhaust wh payload endpoint approach_name extra) as (Hsh & Hch & Hioh).
  { intros k Hk. apply http_error_retried. auto. }
  fold st_ in Hst, Hct, Hiot. fold sh in Hsh, Hch, Hioh.
  rewrite <- (posts_io (trace st_)), <- (posts_io (trace sh)), <- (sleeps_io (trace st_)).
  rewrite Hiot, Hioh, Hct, Hch. repeat split; auto.
Qed.

Lemma timeouts_like_http_errors_witness :
  let st_ := analyze_resumes (constant_world (PostRaises read_timeout)) 4
                             sample_payload approach2_url "OCR-based Analysis" in
  let sh := analyze_resumes (constant_world (Responds response_bad_gateway)) 4
                            sample_payload approach2_url "OCR-based Analysis" in
  st st_ = Returned PNone
  /\ st sh = Returned PNone
  /\ posts (trace st_) = 3
  /\ posts (trace sh) = 3
  /\ current_try st_ = current_try sh
  /\ io (trace st_) = io (trace sh)
  /\ sleeps (trace st_) = [TimeSleep 5; TimeSleep 5].
Proof.
  apply (timeouts_like_http_errors (constant_world (PostRaises read_timeout))
           (constant_world (Responds response_bad_gateway))
           sample_payload approach2_url "OCR-based Analysis" 0).
  - intros k _. exists read_timeout. split; reflexivity.
  - intros k _. exists response_bad_gateway. split; [reflexivity | simpl; lia].
Defined.

(** ** What an attempt shows *)

Lemma attempt_non_200 (w : World) (payload : pyval) (endpoint : string)
      (c : nat) (tr : list event) (r : Response) :
  server w endpoint payload (posts tr) = Responds r ->
  status_code r <> 200%Z ->
  attempt w payload endpoint c tr =
  (Ok (Next (c + 1)),
   tr ++ response_details payload endpoint c r
      ++ StError [Txt "Error Response: "; Fmt (PStr (text r))]
      :: match json_body r with
         | Some (PDict d) =>
             StError [Txt "Error: "; Fmt (dict_get d "error" (PStr "Unknown error occurred"))]
         | Some v => no_get_report c v
         | None => decode_failure_report w c r
         end
      :: wait_events c).
Proof.
  intros Hsrv Hs. apply Z.eqb_neq in Hs.
  run_monad. rewrite !posts_snoc by reflexivity. rewrite Hsrv. simpl. rewrite Hs. simpl.
  destruct (json_body r) as [[| | | | | |d]|]; simpl; close_trace w c.
Qed.

Lemma attempt_200 (w : World) (payload : pyval) (endpoint : string)
      (c : nat) (tr : list event) (r : Response) :
  server w endpoint payload (posts tr) = Responds r ->
  status_code r = 200%Z ->
  attempt w payload endpoint c tr =
  match json_body r with
  | Some (PDict d) =>
      (Ok (Return (dict_get d "analysis" PNone)),
       tr ++ response_details payload endpoint c r
          ++ [ StWrite [Txt "Response Body:"]; StJson (PDict d);
               StSuccess [Txt "Analysis completed successfully!"] ])
  | Some v =>
      (Ok (Next (c + 1)),
       tr ++ response_details payload endpoint c r
          ++ [ StWrite [Txt "Response Body:"]; StJson v;
               StSuccess [Txt "Analysis completed successfully!"];
               no_get_report c v ]
          ++ wait_events c)
  | None =>
      (Ok (Next (c + 1)),
       tr ++ response_details payload endpoint c r
          ++ [ StWrite [Txt "Response Body:"]; decode_failure_report w c r ]
          ++ wait_events c)
  end.
Proof.
  intros Hsrv Hs. apply Z.eqb_eq in Hs.
  run_monad. rewrite !posts_snoc by reflexivity. rewrite Hsrv. simpl. rewrite Hs. simpl.
  destruct (json_body r) as [[| | | | | |d]|]; simpl; close_trace w c.
Qed.

Lemma step_next (w : World) (payload : pyval) (endpoint : string) (s : state)
      (c : nat) (tr : list event) :
  st s = Running ->
  current_try s < max_retries ->
  attempt w payload endpoint (current_try s) (trace s) = (Ok (Next c), tr) ->
  step w payload endpoint s = mkState c tr Running.
Proof.
  intros Hrun Hlt Ha. unfold step. rewrite Hrun.
  apply Nat.ltb_lt in Hlt. now rewrite Hlt, Ha.
Qed.

Lemma wait_events_no_post (c : nat) : posts (wait_events c) = 0.
Proof. unfold wait_events. now destruct (c <? max_retries - 1). Qed.

Lemma wait_events_no_success (c : nat) : filter is_success (wait_events c) = [].
Proof. unfold wait_events. now destruct (c <? max_retries - 1). Qed.

(** The POST count after one more evaluation of the loop test. *)
Lemma posts_after_step (w : World) (payload : pyval) (endpoint : string) (s : state) :
  st s = Running ->
  posts (trace (step w payload endpoint s))
  = if current_try s <? max_retries then S (posts (trace s)) else posts (trace s).
Proof.
  intros Hrun. destruct (current_try s <? max_retries) eqn:Hlt.
  - apply Nat.ltb_lt in Hlt.
    destruct (step_attempt w payload endpoint s Hrun Hlt) as (_ & _ & Hio).
    eapply io_step_posts; [exact Hio|].
    destruct (classify _); auto using delay_after_no_post.
  - apply Nat.ltb_ge in Hlt. rewrite step_exhausted by assumption. simpl.
    now rewrite posts_snoc.
Qed.

(** ** Success *)

Lemma classify_succeeds (o : post_outcome) (a : pyval) :
  classify o = Succeeds a ->
  exists r d, o = Responds r /\ status_code r = 200%Z
              /\ json_body r = Some (PDict d) /\ a = dict_get d "analysis" PNone.
Proof.
  unfold classify. destruct o as [r|e].
  - destruct (status_code r =? 200)%Z eqn:Hs; [|discriminate].
    apply Z.eqb_eq in Hs.
    destruct (json_body r) as [[| | | | | |d]|] eqn:Hb; try discriminate.
    intros [= <-]. now exists r, d.
  - destruct (is_Exception e); discriminate.
Qed.

Lemma classify_propagates (o : post_outcome) (e : exn) :
  classify o = Propagates e -> o = PostRaises e /\ is_Exception e = false.
Proof.
  unfold classify. destruct o as [r|e'].
  - destruct (status_code r =? 200)%Z; [|discriminate].
    destruct (json_body r) as [[| | | | | |d]|]; discriminate.
  - destruct (is_Exception e') eqn:He; [discriminate|]. now intros [= <-].
Qed.

Lemma classify_object_200 (r : Response) (d : list (string * pyval)) :
  status_code r = 200%Z ->
  json_body r = Some (PDict d) ->
  classify (Responds r) = Succeeds (dict_get d "analysis" PNone).
Proof.
  intros Hs Hb. unfold classify. apply Z.eqb_eq in Hs. now rewrite Hs, Hb.
Qed.

(** X19.  When attempt [k] (after [k] retried ones) is
    answered with status 200 and a body that parses to a JSON object, the
    dispatcher returns on that attempt: [k + 1] POSTs in all, none after it
    and no delay after it, and the value returned is the object's [analysis]
    entry, [None] when the object has none. *)
Theorem object_200_returns_analysis (w : World) (payload : pyval)
        (endpoint approach_name : string) (k : nat) (r : Response)
        (d : list (string * pyval)) (extra : nat) :
  k < max_retries ->
  (forall j, j < k -> retried (server w endpoint payload j) = true) ->
  server w endpoint payload k = Responds r ->
  status_code r = 200%Z ->
  json_body r = Some (PDict d) ->
  let s := analyze_resumes w (S max_retries + extra) payload endpoint approach_name in
  st s = Returned (match assoc "analysis" d with Some a => a | None => PNone end)
  /\ posts (trace s) = S k
  /\ current_try s = k
  /\ io (trace s) = retry_io (the_post payload endpoint) 0 k ++ [the_post payload endpoint].
Proof.
  intros Hk Hall Hsrv Hs Hb s.
  pose (s0 := init payload approach_name).
  destruct (run_retries w payload endpoint k s0) as (H1 & H2 & H3 & H4);
    try reflexivity; simpl; try lia.
  { intros j Hj. apply Hall. lia. }
  set (sk := run w k payload endpoint s0) in *. simpl in H2, H3, H4.
  assert (Hlt : current_try sk < max_retries) by (rewrite H2; exact Hk).
  destruct (step_attempt w payload endpoint sk H1 Hlt) as (Hst & Hc & Hio).
  rewrite H3, Hsrv, (classify_object_200 r d Hs Hb) in *.
  assert (Hs' : s = step w payload endpoint sk).
  { unfold s, analyze_resumes. fold s0.
    rewrite (run_stable w payload endpoint (S k) (S max_retries + extra) s0).
    - now rewrite run_succ.
    - rewrite run_succ. fold sk. rewrite Hst. congruence.
    - lia. }
  rewrite Hs'.
  destruct (io_step_posts _ _ _ _ _ Hio (Forall_nil _)) as [Hn _].
  rewrite Hst, Hn, Hc, Hio, H2, H3, H4. unfold dict_get. auto.
Qed.

Lemma object_200_returns_analysis_witness :
  let s := analyze_resumes recovering_world 4 sample_payload approach2_url
                           "OCR-based Analysis" in
  st s = Returned (PList [PDict [("Candidate ID", PStr "001")]])
  /\ posts (trace s) = 3
  /\ current_try s = 2
  /\ io (trace s) = retry_io (the_post sample_payload approach2_url) 0 2
                      ++ [the_post sample_payload approach2_url].
Proof.
  apply (object_200_returns_analysis recovering_world sample_payload approach2_url
           "OCR-based Analysis" 2 response_ok
           [("analysis", PList [PDict [("Candidate ID", PStr "001")]])] 0).
  - unfold max_retries. lia.
  - intros j Hj. destruct j as [|[|j]]; [reflexivity | reflexivity | lia].
  - reflexivity.
  - reflexivity.
  - reflexivity.
Defined.

(** The sentence of the specification on a parseable body with status 200
    does not hold of the code: answered with status 200 and the JSON array
    [[]], the first attempt does not return; two more POSTs follow. *)
Lemma parseable_200_array_not_returned :
  ~ spec_returns_on_parseable_200 (constant_world (Responds response_ok_array))
      sample_payload approach2_url "OCR-based Analysis".
Proof.
  intros H.
  assert (H0 : 0 < max_retries) by (unfold max_retries; lia).
  assert (Hnone : forall j, j < 0 ->
            retried (server (constant_world (Responds response_ok_array))
                            approach2_url sample_payload j) = true)
    by (intros j Hj; lia).
  destruct (H 0 response_ok_array (PList []) 0 H0 Hnone eq_refl eq_refl eq_refl) as [_ Hposts].
  vm_compute in Hposts. discriminate.
Qed.

(** C2 fails on the code.  Answered with status 200 and the JSON array
    [[]] on every attempt, the dispatcher shows the body and "Analysis
    completed successfully!" on the first attempt and then does not return:
    [.get] fails on the list after the success was announced, the attempt is
    retried, and the same happens twice more.  In all it makes three POSTs
    and two delays, announces success three times, shows the failure notice
    and only then returns [None]. *)
Lemma array_200_announced_then_failed :
  let w := constant_world (Responds response_ok_array) in
  let s1 := step w sample_payload approach2_url (init sample_payload "OCR-based Analysis") in
  let s := analyze_resumes w 4 sample_payload approach2_url "OCR-based Analysis" in
  st s1 = Running
  /\ filter is_success (trace s1) = [StSuccess [Txt "Analysis completed successfully!"]]
  /\ st s = Returned PNone
  /\ posts (trace s) = 3
  /\ sleeps (trace s) = [TimeSleep 5; TimeSleep 5]
  /\ filter is_success (trace s)
     = repeat (StSuccess [Txt "Analysis completed successfully!"]) 3
  /\ filter is_failure_notice (trace s) = [failure_notice].
Proof. vm_compute. repeat split. Qed.

(** ** No exception leaves the dispatcher *)

Lemma accounted_step (w : World) (payload : pyval) (endpoint : string) (s : state) :
  inv payload endpoint s ->
  accounted w payload endpoint s ->
  accounted w payload endpoint (step w payload endpoint s).
Proof.
  intros (Hc & Hp & Hst & _) Hacc.
  destruct (st s) eqn:Hrun; try (rewrite step_halted; congruence).
  destruct (Nat.lt_ge_cases (current_try s) max_retries) as [Hlt|Hge].
  - destruct (step_attempt w payload endpoint s Hrun Hlt) as (Hs' & _ & _).
    unfold accounted. rewrite Hs'.
    destruct (classify (server w endpoint payload (posts (trace s)))) as [a| |e] eqn:Hv.
    + right. apply classify_succeeds in Hv. destruct Hv as (r & d & H1 & H2 & H3 & H4).
      exists (posts (trace s)), r, d. repeat split; auto. lia.
    + exact I.
    + apply classify_propagates in Hv. destruct Hv as [H1 H2].
      exists (posts (trace s)). repeat split; auto. lia.
  - rewrite step_exhausted by assumption. unfold accounted. simpl. now left.
Qed.

Lemma accounted_run (w : World) (payload : pyval) (endpoint : string) (n : nat) (s : state) :
  inv payload endpoint s ->
  accounted w payload endpoint s ->
  accounted w payload endpoint (run w n payload endpoint s).
Proof.
  revert s. induction n as [|n IH]; intros s Hinv Hacc; simpl; auto.
  apply IH; auto using inv_step, accounted_step.
Qed.

(** C6. Whatever the payload and the endpoint, and whatever each attempt
    meets among a response of any status and body, a timeout, another
    request exception or any other [Exception], the dispatcher returns: the
    loop ends within [max_retries + 1] evaluations of its test, no exception
    leaves it, and the value returned is [None] or the [analysis] entry of a
    JSON object received with status 200. *)
Theorem dispatch_never_raises (w : World) (payload : pyval)
        (endpoint approach_name : string) (extra : nat) :
  (forall k, k < max_retries -> listed_outcome (server w endpoint payload k) = true) ->
  let s := analyze_resumes w (S max_retries + extra) payload endpoint approach_name in
  exists v, st s = Returned v
            /\ (v = PNone \/ extracted_analysis w payload endpoint v).
Proof.
  intros Hall s.
  pose (s0 := init payload approach_name).
  assert (Hhalt : st s <> Running).
  { apply run_halts; [apply inv_init | lia]. }
  assert (Hacc : accounted w payload endpoint s).
  { apply accounted_run; [apply inv_init | exact I]. }
  unfold accounted in Hacc.
  destruct (st s) as [|v|e]; [congruence | now exists v |].
  destruct Hacc as (k & Hk & Hsrv & He).
  specialize (Hall k Hk). rewrite Hsrv in Hall. simpl in Hall. congruence.
Qed.

Lemma dispatch_never_raises_witness :
  let s := analyze_resumes recovering_world 4 sample_payload approach2_url
                           "OCR-based Analysis" in
  exists v, st s = Returned v
            /\ (v = PNone
                \/ extracted_analysis recovering_world sample_payload approach2_url v).
Proof.
  apply (dispatch_never_raises recovering_world sample_payload approach2_url
           "OCR-based Analysis" 0).
  intros k Hk. destruct k as [|[|k]]; reflexivity.
Defined.

(** ** Bodies that do not parse *)

(** C9. An attempt answered with status 200 and a body that is not valid
    JSON does not return: the decode error raised while the body is shown is
    caught by the handler of its class, which reports it; no success is
    reported; the counter goes up by exactly one; and the loop goes on under
    the same test, making another POST exactly when the new counter is still
    below [max_retries]. *)
Theorem unparseable_200_is_retried (w : World) (payload : pyval) (endpoint : string)
        (s : state) (r : Response) :
  st s = Running ->
  current_try s < max_retries ->
  server w endpoint payload (posts (trace s)) = Responds r ->
  status_code r = 200%Z ->
  json_body r = None ->
  let c := current_try s in
  let s' := step w payload endpoint s in
  st s' = Running
  /\ current_try s' = S c
  /\ trace s' = trace s ++ response_details payload endpoint c r
                  ++ [StWrite [Txt "Response Body:"]; decode_failure_report w c r]
                  ++ wait_events c
  /\ filter is_success (trace s') = filter is_success (trace s)
  /\ is_Exception (JSONDecodeError w (text r)) = true
  /\ posts (trace (step w payload endpoint s'))
     = if S c <? max_retries then S (S (posts (trace s))) else S (posts (trace s)).
Proof.
  intros Hrun Hlt Hsrv Hs Hb c s'.
  pose proof (attempt_200 w payload endpoint c (trace s) r Hsrv Hs) as Ha.
  rewrite Hb in Ha.
  assert (Hs' : s' = mkState (c + 1) _ Running) by (apply step_next; eassumption).
  assert (Hn : posts (trace s') = S (posts (trace s))).
  { rewrite Hs'. cbn [trace]. rewrite !posts_app, wait_events_no_post.
    change (posts (response_details payload endpoint c r)) with 1.
    change (posts [StWrite [Txt "Response Body:"]; decode_failure_report w c r]) with 0.
    lia. }
  assert (Hr : st s' = Running) by now rewrite Hs'.
  assert (Hc : current_try s' = S c) by (rewrite Hs'; simpl; lia).
  repeat split; auto.
  - now rewrite Hs'.
  - rewrite Hs'. cbn [trace]. rewrite !filter_app, wait_events_no_success.
    cbn. now rewrite !app_nil_r.
  - unfold JSONDecodeError, is_Exception. simpl.
    now destruct (json_error_is_request_exception w).
  - rewrite posts_after_step by assumption. rewrite Hc, Hn. reflexivity.
Qed.

Lemma unparseable_200_is_retried_witness :
  let w := constant_world (Responds response_ok_html) in
  let s := init sample_payload "OCR-based Analysis" in
  let s' := step w sample_payload approach2_url s in
  st s' = Running
  /\ current_try s' = 1
  /\ trace s' = trace s ++ response_details sample_payload approach2_url 0 response_ok_html
                  ++ [StWrite [Txt "Response Body:"];
                      decode_failure_report w 0 response_ok_html]
                  ++ wait_events 0
  /\ filter is_success (trace s') = filter is_success (trace s)
  /\ is_Exception (JSONDecodeError w (text response_ok_html)) = true
  /\ posts (trace (step w sample_payload approach2_url s')) = 2.
Proof.
  apply (unparseable_200_is_retried (constant_world (Responds response_ok_html))
           sample_payload approach2_url (init sample_payload "OCR-based Analysis")
           response_ok_html).
  - reflexivity.
  - simpl. unfold max_retries. lia.
  - reflexivity.
  - reflexivity.
  - reflexivity.
Defined.

(** C5, as the code has it.  An attempt that completes with a status other
    than 200 shows the raw response text in the response details and stays in
    the loop with the counter incremented once.  When the body is a JSON
    object the message reported is its [error] entry, or "Unknown error
    occurred" without one.  When the body is not valid JSON, or is JSON but
    not an object, no message is extracted: the extraction raises, the
    handler of the exception's class reports the exception's own text, and no
    ["Error: ..."] line is shown. *)
Theorem non_200_error_message (w : World) (payload : pyval) (endpoint : string)
        (s : state) (r : Response) :
  st s = Running ->
  current_try s < max_retries ->
  server w endpoint payload (posts (trace s)) = Responds r ->
  status_code r <> 200%Z ->
  let c := current_try s in
  let s' := step w payload endpoint s in
  st s' = Running
  /\ current_try s' = S c
  /\ trace s' = trace s ++ response_details payload endpoint c r
                  ++ StError [Txt "Error Response: "; Fmt (PStr (text r))]
                  :: match json_body r with
                     | Some (PDict d) =>
                         StError [Txt "Error: ";
                                  Fmt (match assoc "error" d with
                                       | Some msg => msg
                                       | None => PStr "Unknown error occurred"
                                       end)]
                     | Some v => no_get_report c v
                     | None => decode_failure_report w c r
                     end
                  :: wait_events c
  /\ filter is_http_error_report (trace s')
     = filter is_http_error_report (trace s)
         ++ match json_body r with
            | Some (PDict d) =>
                [StError [Txt "Error: "; Fmt (dict_get d "error" (PStr "Unknown error occurred"))]]
            | _ => []
            end.
Proof.
  intros Hrun Hlt Hsrv Hs c s'.
  pose proof (attempt_non_200 w payload endpoint c (trace s) r Hsrv Hs) as Ha.
  assert (Hs' : s' = mkState (c + 1) _ Running) by (apply step_next; eassumption).
  repeat split.
  - now rewrite Hs'.
  - rewrite Hs'. simpl. lia.
  - rewrite Hs'. simpl. unfold dict_get. reflexivity.
  - rewrite Hs'. cbn [trace]. rewrite !filter_app. f_equal.
    unfold wait_events, decode_failure_report, no_get_report.
    change (max_retries - 1) with 2.
    destruct (json_body r) as [[| | | | | |d]|];
      destruct (json_error_is_request_exception w);
      destruct (c <? 2); reflexivity.
Qed.

Lemma non_200_error_message_witness :
  let w := constant_world (Responds response_error) in
  let s := init sample_payload "OCR-based Analysis" in
  let s' := step w sample_payload approach2_url s in
  st s' = Running
  /\ current_try s' = 1
  /\ trace s' = trace s ++ response_details sample_payload approach2_url 0 response_error
                  ++ [ StError [Txt "Error Response: "; Fmt (PStr (text response_error))];
                       StError [Txt "Error: "; Fmt (PStr "bad payload")] ]
                  ++ wait_events 0
  /\ filter is_http_error_report (trace s')
     = [StError [Txt "Error: "; Fmt (PStr "bad payload")]].
Proof.
  apply (non_200_error_message (constant_world (Responds response_error))
           sample_payload approach2_url (init sample_payload "OCR-based Analysis")
           response_error).
  - reflexivity.
  - simpl. unfold max_retries. lia.
  - reflexivity.
  - simpl. lia.
Defined.

(** C5 as the specification words it fails: for status 502 with the body
    "Bad Gateway", and for status 500 with the JSON array [[]], the attempt
    shows no ["Error: ..."] line at all, neither with the raw text nor with
    the generic message. *)
Lemma unparseable_error_not_extracted :
  ~ spec_reports_http_error (constant_world (Responds response_bad_gateway))
      sample_payload approach2_url (init sample_payload "OCR-based Analysis")
  /\ ~ spec_reports_http_error (constant_world (Responds response_error_array))
         sample_payload approach2_url (init sample_payload "OCR-based Analysis").
Proof.
  assert (Hlt : current_try (init sample_payload "OCR-based Analysis") < max_retries)
    by (simpl; unfold max_retries; lia).
  split; intros H.
  - assert (Hs : status_code response_bad_gateway <> 200%Z) by (simpl; lia).
    specialize (H response_bad_gateway eq_refl Hlt eq_refl Hs).
    vm_compute in H.
    repeat (destruct H as [H|H]; [discriminate H|]). exact H.
  - assert (Hs : status_code response_error_array <> 200%Z) by (simpl; lia).
    specialize (H response_error_array eq_refl Hlt eq_refl Hs).
    vm_compute in H.
    repeat (destruct H as [H|H]; [discriminate H|]). exact H.
Qed.

(** ** Timeouts of the request *)

(** C4 fails on the code.  Every POST of a dispatch is the same call: made on
    a session whose attribute [timeout] was set to (60, 300), with no
    [timeout] argument; the timeout [requests] applies to it is therefore
    none at all, not 60 seconds to connect and 300 to read. *)
Theorem every_post_without_timeout (w : World) (fuel : nat) (payload : pyval)
        (endpoint approach_name : string) :
  let s := analyze_resumes w fuel payload endpoint approach_name in
  Forall (fun e => e = SessionPost (mkSession (Some (60, 300)%Z)) endpoint payload None
                   /\ applied_timeout e = Some None
                   /\ applied_timeout e <> Some (Some (60, 300)%Z))
         (filter is_post (trace s)).
Proof.
  intros s.
  assert (Hinv : inv payload endpoint s) by (apply inv_run, inv_init).
  destruct Hinv as (_ & _ & _ & Hposts). rewrite Hposts.
  apply Forall_forall. intros e He. apply repeat_spec in He. subst e.
  repeat split; discriminate.
Qed.

(** The same at a server that lets every read time out. *)
Example timeouts_never_configured :
  map applied_timeout
      (filter is_post
         (trace (analyze_resumes (constant_world (PostRaises read_timeout)) 4
                                 sample_payload approach2_url "OCR-based Analysis")))
  = [Some None; Some None; Some None].
Proof. reflexivity. Qed.

(** ** Payloads *)

Lemma nonempty_not_nil {A} (l : list A) : nonempty l = true -> l <> [].
Proof. destruct l; [discriminate | intros _; discriminate]. Qed.

(** C8. Every payload the script passes to the dispatcher is a dict of
    exactly two entries: [images] or [ocr_list], holding a list that is not
    empty, and [prompt], holding the prompt built from the requirements; so
    it has exactly one of the two fields, never both and never neither. *)
Theorem payload_has_exactly_one_source (format_value : pyval -> string)
        (b64encode : list Byte.byte -> string) (ext_lower : string -> string)
        (i : Inputs) (c : call) :
  In c (dispatch_calls format_value b64encode ext_lower i) ->
  exists field items prompt,
    call_payload c = PDict [(field, PList items); ("prompt", PStr prompt)]
    /\ (field = "images" \/ field = "ocr_list")
    /\ items <> []
    /\ keys [(field, PList items); ("prompt", PStr prompt)] = [field; "prompt"]
    /\ xorb (has_key (call_payload c) "images") (has_key (call_payload c) "ocr_list") = true
    /\ has_key (call_payload c) "prompt" = true.
Proof.
  unfold dispatch_calls. intros Hin.
  apply in_app_or in Hin. destruct Hin as [Hin|Hin]; [|apply in_app_or in Hin; destruct Hin as [Hin|Hin]].
  - unfold default_images_flow in Hin.
    destruct (nonempty (images i)); [|contradiction].
    destruct (analyze_default_clicked i); [|contradiction].
    destruct (nonempty (base64_images b64encode ext_lower (read_file i) (images i))) eqn:Hne;
      [|contradiction].
    destruct Hin as [<-|[]]. simpl.
    eexists "images", _, _. repeat split; auto using nonempty_not_nil.
  - unfold upload_flow in Hin.
    destruct (nonempty (uploaded_files i)) eqn:Hne; [|contradiction].
    destruct Hin as [<-|[]]. simpl.
    eexists "images", _, _. repeat split; auto.
    destruct (uploaded_files i); [discriminate Hne | discriminate].
  - unfold ocr_flow in Hin.
    destruct (analyze_ocr_clicked i); [|contradiction].
    destruct (nonempty (ocr_records (load_json i) (ocr_files i))) eqn:Hne; [|contradiction].
    destruct Hin as [<-|[]]. simpl.
    eexists "ocr_list", _, _. repeat split; auto using nonempty_not_nil.
Qed.

Lemma payload_has_exactly_one_source_witness :
  let c := mkCall (PDict [ ("ocr_list", PList [PDict [("text", PStr "Jane Doe, engineer")]]);
                           ("prompt", PStr (get_analysis_prompt (fun _ => "None")
                                              (PStr "5+ years of Python"))) ])
                  approach2_url "OCR-based Analysis" in
  In c (dispatch_calls (fun _ => "None") (fun _ => "JVBERg==") (fun _ => "png") sample_inputs)
  /\ exists field items prompt,
      call_payload c = PDict [(field, PList items); ("prompt", PStr prompt)]
      /\ (field = "images" \/ field = "ocr_list")
      /\ items <> []
      /\ keys [(field, PList items); ("prompt", PStr prompt)] = [field; "prompt"]
      /\ xorb (has_key (call_payload c) "images") (has_key (call_payload c) "ocr_list") = true
      /\ has_key (call_payload c) "prompt" = true.
Proof.
  intros c.
  assert (Hin : In c (dispatch_calls (fun _ => "None") (fun _ => "JVBERg==")
                                     (fun _ => "png") sample_inputs))
    by (left; reflexivity).
  split; [exact Hin|].
  exact (payload_has_exactly_one_source _ _ _ sample_inputs c Hin).
Defined.

(** ** The prompt *)

(** C10. The prompt builder returns the base rubric unchanged for the empty
    string, for [None] and for every other value that tests false; for
    every string that is not empty it returns the base rubric, then two line
    feeds, "Additional Requirements:", a line feed, and the string. *)
Theorem prompt_of_requirements (format_value : pyval -> string) :
  get_analysis_prompt format_value (PStr EmptyString) = base_prompt
  /\ get_analysis_prompt format_value PNone = base_prompt
  /\ (forall v, truthy v = false -> get_analysis_prompt format_value v = base_prompt)
  /\ (forall s, s <> EmptyString ->
        get_analysis_prompt format_value (PStr s)
        = (base_prompt ++ nl ++ nl ++ "Additional Requirements:" ++ nl ++ s)%string).
Proof.
  repeat split.
  - intros v Hv. unfold get_analysis_prompt. now rewrite Hv.
  - intros s Hs. unfold get_analysis_prompt, additional_requirements.
    destruct s as [|a s]; [congruence|]. cbn [truthy py_format].
    f_equal.
Qed.

Lemma prompt_of_requirements_witness :
  get_analysis_prompt (fun _ => "None") (PList []) = base_prompt
  /\ get_analysis_prompt (fun _ => "None") (PStr "5+ years of Python")
     = (base_prompt ++ nl ++ nl ++ "Additional Requirements:" ++ nl
          ++ "5+ years of Python")%string.
Proof.
  destruct (prompt_of_requirements (fun _ => "None")) as (_ & _ & Hfalse & Htrue).
  split.
  - apply Hfalse. reflexivity.
  - apply Htrue. discriminate.
Defined.

(** * Further properties of the dispatcher *)

(** An attempt shows its spinner first and never the failure notice. *)
Lemma attempt_marks (w : World) (payload : pyval) (endpoint : string)
      (c : nat) (tr : list event) :
  let res := attempt w payload endpoint c tr in
  filter is_failure_notice (snd res) = filter is_failure_notice tr
  /\ filter is_spinner (snd res) = filter is_spinner tr ++ [attempt_label c].
Proof.
  unfold attempt_label. run_monad.
  rewrite !posts_snoc by reflexivity.
  change (max_retries - 1) with 2.
  destruct (c <? 2);
    (destruct (server w endpoint payload (posts tr)) as [r|[cls msg]]; simpl;
     [ destruct (status_code r =? 200)%Z; simpl;
       destruct (json_body r) as [[| | | | | |d]|]; simpl;
       try (destruct (json_error_is_request_exception w); simpl)
     | destruct cls; simpl ]);
    (split; rewrite !filter_app; simpl; repeat rewrite <- app_assoc; simpl;
     rewrite ?app_nil_r; reflexivity).
Qed.

Lemma step_marks (w : World) (payload : pyval) (endpoint : string) (s : state) :
  st s = Running ->
  current_try s < max_retries ->
  let s' := step w payload endpoint s in
  filter is_failure_notice (trace s') = filter is_failure_notice (trace s)
  /\ filter is_spinner (trace s') = filter is_spinner (trace s) ++ [attempt_label (current_try s)].
Proof.
  intros Hrun Hlt. unfold step. rewrite Hrun.
  apply Nat.ltb_lt in Hlt. rewrite Hlt.
  pose proof (attempt_marks w payload endpoint (current_try s) (trace s)) as H.
  destruct (attempt w payload endpoint (current_try s) (trace s)) as [[[v|c]|e] tr'];
    exact H.
Qed.

(** ** Calls and delays alternate *)

Lemma io_shape_step (w : World) (payload : pyval) (endpoint : string) (s : state) :
  inv payload endpoint s ->
  io_shape payload endpoint s ->
  io_shape payload endpoint (step w payload endpoint s).
Proof.
  intros (Hc & _ & _ & _) Hio.
  destruct (st s) eqn:Hrun; try (rewrite step_halted; [exact Hio | congruence]).
  unfold io_shape in Hio. rewrite Hrun in Hio.
  destruct (Nat.lt_ge_cases (current_try s) max_retries) as [Hlt|Hge].
  - destruct (step_attempt w payload endpoint s Hrun Hlt) as (Hs' & Hc' & Hio').
    unfold io_shape. rewrite Hs', Hio', Hio.
    unfold max_retries in Hlt.
    destruct (classify (server w endpoint payload (posts (trace s)))).
    + exists (current_try s). split; [lia|].
      destruct (current_try s) as [|[|[|c]]]; try reflexivity; lia.
    + rewrite Hc'.
      destruct (current_try s) as [|[|[|c]]]; try reflexivity; lia.
    + exists (current_try s). split; [lia|].
      destruct (current_try s) as [|[|[|c]]]; try reflexivity; lia.
  - rewrite step_exhausted by assumption. unfold io_shape. simpl.
    exists 2. split; [lia|]. rewrite io_app, Hio. simpl. rewrite app_nil_r.
    assert (Heq : current_try s = max_retries) by lia.
    rewrite Heq. reflexivity.
Qed.

Lemma io_shape_run (w : World) (payload : pyval) (endpoint : string) (n : nat) (s : state) :
  inv payload endpoint s ->
  io_shape payload endpoint s ->
  io_shape payload endpoint (run w n payload endpoint s).
Proof.
  revert s. induction n as [|n IH]; intros s Hinv Hio; simpl; auto.
  apply IH; auto using inv_step, io_shape_step.
Qed.

(** X1. Whatever the server does, a dispatch that has ended made its
    network calls and delays in strict alternation, beginning and ending with
    a call: a POST, then at most twice a delay of 5 seconds followed by a
    POST.  So there is one delay fewer than POSTs, no delay before the first
    attempt or after the last, and at most 10 seconds of delay in all. *)
Theorem calls_and_delays_alternate (w : World) (payload : pyval)
        (endpoint approach_name : string) (extra : nat) :
  let s := analyze_resumes w (S max_retries + extra) payload endpoint approach_name in
  exists n,
    n <= 2
    /\ io (trace s) = alternating (the_post payload endpoint) n
    /\ posts (trace s) = S n
    /\ sleeps (trace s) = repeat (TimeSleep 5) n.
Proof.
  intros s.
  assert (Hhalt : st s <> Running) by (apply run_halts; [apply inv_init | lia]).
  assert (Hio : io_shape payload endpoint s).
  { apply io_shape_run; [apply inv_init | reflexivity]. }
  unfold io_shape in Hio.
  destruct (st s); [congruence | |];
    destruct Hio as (n & Hn & Hio); exists n;
    rewrite <- (posts_io (trace s)), <- (sleeps_io (trace s)), Hio;
    (split; [exact Hn|]); (split; [reflexivity|]);
    destruct n as [|[|[|n]]]; try lia; split; reflexivity.
Qed.

(** ** Termination *)

(** X2. For every server, payload and endpoint the loop has ended after
    at most [max_retries + 1] evaluations of its test, and further fuel
    changes nothing: the final state is that of fuel [max_retries + 1]. *)
Theorem dispatch_halts (w : World) (payload : pyval) (endpoint approach_name : string)
        (extra : nat) :
  let s := analyze_resumes w (S max_retries) payload endpoint approach_name in
  st s <> Running
  /\ analyze_resumes w (S max_retries + extra) payload endpoint approach_name = s.
Proof.
  intros s.
  assert (Hhalt : st s <> Running) by (apply run_halts; [apply inv_init | lia]).
  split; [exact Hhalt|].
  unfold analyze_resumes. apply run_stable; [exact Hhalt | lia].
Qed.

(** ** How a dispatch ends *)

Lemma run_verdict (w : World) (payload : pyval) (endpoint : string) (n : nat) :
  forall (s : state) (extra : nat),
    st s = Running ->
    posts (trace s) = current_try s ->
    current_try s + n = max_retries ->
    let s' := run w (S n + extra) payload endpoint s in
    (st s', posts (trace s'), current_try s')
    = verdict_from w payload endpoint (current_try s) n.
Proof.
  induction n as [|n IH]; intros s extra Hrun Hp Hc.
  - cbn [verdict_from]. rewrite run_stable with (n := 1); [|simpl|lia].
    + simpl. rewrite step_exhausted by (try assumption; lia). simpl.
      rewrite posts_snoc by reflexivity. now rewrite Hp.
    + rewrite step_exhausted by (try assumption; lia). simpl. congruence.
  - assert (Hlt : current_try s < max_retries) by lia.
    destruct (step_attempt w payload endpoint s Hrun Hlt) as (Hs' & Hc' & _).
    pose proof (posts_after_step w payload endpoint s Hrun) as Hn.
    apply Nat.ltb_lt in Hlt. rewrite Hlt in Hn.
    cbn [verdict_from]. rewrite <- Hp at 1.
    change (run w (S (S n) + extra) payload endpoint s)
      with (run w (S n + extra) payload endpoint (step w payload endpoint s)).
    destruct (classify (server w endpoint payload (posts (trace s)))) as [a| |e].
    + rewrite run_halted by (rewrite Hs'; congruence).
      now rewrite Hs', Hn, Hc', Hp.
    + specialize (IH (step w payload endpoint s) extra Hs').
      rewrite Hc' in IH. apply IH; lia.
    + rewrite run_halted by (rewrite Hs'; congruence).
      now rewrite Hs', Hn, Hc', Hp.
Qed.

Lemma analyze_verdict (w : World) (payload : pyval) (endpoint approach_name : string)
      (extra : nat) :
  let s := analyze_resumes w (S max_retries + extra) payload endpoint approach_name in
  (st s, posts (trace s), current_try s) = expected_end w payload endpoint.
Proof.
  apply (run_verdict w payload endpoint max_retries (init payload approach_name) extra);
    reflexivity.
Qed.

(** X3. The end of a dispatch is decided by the first of its three attempts
    that is not retried: the value of that attempt is returned, or its
    exception leaves the dispatcher, after as many POSTs as attempts were
    made up to it and with the counter at the number of retried attempts;
    with three retried attempts the result is [None] after three POSTs with
    the counter at 3. *)
Theorem dispatch_ends_as_expected (w : World) (payload : pyval)
        (endpoint approach_name : string) (extra : nat) :
  let s := analyze_resumes w (S max_retries + extra) payload endpoint approach_name in
  (st s, posts (trace s), current_try s) = expected_end w payload endpoint.
Proof. apply analyze_verdict. Qed.

(** ** The failure notice *)

Lemma notice_shape_step (w : World) (payload : pyval) (endpoint : string) (s : state) :
  inv payload endpoint s ->
  notice_shape s ->
  notice_shape (step w payload endpoint s).
Proof.
  intros (Hc & _ & _ & _) Hn.
  destruct (st s) eqn:Hrun; try (rewrite step_halted; [exact Hn | congruence]).
  unfold notice_shape in Hn. rewrite Hrun in Hn.
  destruct (Nat.lt_ge_cases (current_try s) max_retries) as [Hlt|Hge].
  - destruct (step_attempt w payload endpoint s Hrun Hlt) as (Hs' & Hc' & _).
    destruct (step_marks w payload endpoint s Hrun Hlt) as (Hm & _).
    unfold notice_shape. rewrite Hm, Hn, Hs', Hc'.
    assert (Hne : (current_try s =? max_retries) = false) by (apply Nat.eqb_neq; lia).
    destruct (classify (server w endpoint payload (posts (trace s))));
      rewrite ?Hne; reflexivity.
  - rewrite step_exhausted by assumption. unfold notice_shape.
    cbn [trace st current_try].
    assert (Heq : (current_try s =? max_retries) = true) by (apply Nat.eqb_eq; lia).
    rewrite filter_app, Hn, Heq. reflexivity.
Qed.

Lemma notice_shape_run (w : World) (payload : pyval) (endpoint : string) (n : nat) (s : state) :
  inv payload endpoint s ->
  notice_shape s ->
  notice_shape (run w n payload endpoint s).
Proof.
  revert s. induction n as [|n IH]; intros s Hinv Hn; simpl; auto.
  apply IH; auto using inv_step, notice_shape_step.
Qed.

Lemma expected_counter (w : World) (payload : pyval) (endpoint : string) :
  (snd (expected_end w payload endpoint) =? max_retries) = all_retried w payload endpoint.
Proof.
  unfold expected_end, all_retried, retried. simpl.
  destruct (classify (server w endpoint payload 0)); try reflexivity.
  destruct (classify (server w endpoint payload 1)); try reflexivity.
  destruct (classify (server w endpoint payload 2)); reflexivity.
Qed.

(** X4. A dispatch that has ended shows "All retry attempts failed. Please
    try again later." exactly once when its three attempts were all retried,
    and not at all otherwise; while the loop runs it is never shown. *)
Theorem failure_notice_iff_exhausted (w : World) (payload : pyval)
        (endpoint approach_name : string) (extra : nat) :
  let s := analyze_resumes w (S max_retries + extra) payload endpoint approach_name in
  filter is_failure_notice (trace s)
  = (if all_retried w payload endpoint then [failure_notice] else [])
  /\ forall fuel,
       let s' := analyze_resumes w fuel payload endpoint approach_name in
       match st s' with
       | Running => filter is_failure_notice (trace s') = []
       | _ => True
       end.
Proof.
  intros s. split.
  - assert (Hhalt : st s <> Running) by (apply run_halts; [apply inv_init | lia]).
    assert (Hn : notice_shape s) by (apply notice_shape_run; [apply inv_init | reflexivity]).
    pose proof (analyze_verdict w payload endpoint approach_name extra) as He.
    fold s in He. unfold notice_shape in Hn.
    rewrite <- expected_counter, <- He. simpl.
    destruct (st s); [congruence | exact Hn | exact Hn].
  - intros fuel s'.
    assert (Hn : notice_shape s') by (apply notice_shape_run; [apply inv_init | reflexivity]).
    unfold notice_shape in Hn. destruct (st s'); auto.
Qed.

(** ** Attempt numbers *)

Lemma labels_shape_step (w : World) (payload : pyval) (endpoint : string) (s : state) :
  inv payload endpoint s ->
  labels_shape s ->
  labels_shape (step w payload endpoint s).
Proof.
  intros (_ & _ & Hst & _) Hl.
  destruct (st s) eqn:Hrun; try (rewrite step_halted; [exact Hl | congruence]).
  pose proof (posts_after_step w payload endpoint s Hrun) as Hn.
  unfold labels_shape in *.
  destruct (Nat.lt_ge_cases (current_try s) max_retries) as [Hlt|Hge].
  - destruct (step_marks w payload endpoint s Hrun Hlt) as (_ & Hm).
    apply Nat.ltb_lt in Hlt. rewrite Hlt in Hn.
    rewrite Hm, Hn, Hl, seq_S, map_app, <- Hst. reflexivity.
  - rewrite step_exhausted by assumption. simpl.
    rewrite filter_app, posts_snoc by reflexivity. simpl. now rewrite app_nil_r.
Qed.

Lemma labels_shape_run (w : World) (payload : pyval) (endpoint : string) (n : nat) (s : state) :
  inv payload endpoint s ->
  labels_shape s ->
  labels_shape (run w n payload endpoint s).
Proof.
  revert s. induction n as [|n IH]; intros s Hinv Hl; simpl; auto.
  apply IH; auto using inv_step, labels_shape_step.
Qed.

(** X5. At every point of a dispatch the spinners shown so far are
    "Attempt 1/3", "Attempt 2/3", ... in this order, one for each POST made
    so far: attempts are numbered from 1 without gap or repetition, and no
    number above 3 is shown. *)
Theorem attempts_numbered_in_order (w : World) (fuel : nat) (payload : pyval)
        (endpoint approach_name : string) :
  let s := analyze_resumes w fuel payload endpoint approach_name in
  filter is_spinner (trace s) = map attempt_label (seq 0 (posts (trace s)))
  /\ posts (trace s) <= 3.
Proof.
  intros s. split.
  - apply labels_shape_run; [apply inv_init | reflexivity].
  - assert (Hinv : inv payload endpoint s) by (apply inv_run, inv_init).
    destruct Hinv as (_ & Hp & _). exact Hp.
Qed.

(** ** Exceptions that are not caught *)

Lemma retried_classify (o : post_outcome) : retried o = true -> classify o = Retries.
Proof. unfold retried. destruct (classify o); congruence. Qed.

Lemma verdict_from_skip (w : World) (payload : pyval) (endpoint : string) (k : nat) :
  forall c n,
    (forall j, c <= j < c + k -> retried (server w endpoint payload j) = true) ->
    verdict_from w payload endpoint c (k + n) = verdict_from w payload endpoint (c + k) n.
Proof.
  induction k as [|k IH]; intros c n Hall.
  - now rewrite Nat.add_0_r.
  - cbn [Nat.add verdict_from].
    rewrite (retried_classify _ (Hall c ltac:(lia))).
    rewrite IH by (intros j Hj; apply Hall; lia).
    f_equal. lia.
Qed.

(** X6. The handlers catch instances of [Exception] only.  When the POST of
    an attempt, reached after retried ones, raises an exception that is not
    one (a [KeyboardInterrupt], say), this exception leaves the dispatcher at
    once: no further POST, no delay, no failure notice, and the counter is
    not incremented. *)
Theorem base_exception_leaves_dispatcher (w : World) (payload : pyval)
        (endpoint approach_name : string) (k : nat) (e : exn) (extra : nat) :
  k < max_retries ->
  (forall j, j < k -> retried (server w endpoint payload j) = true) ->
  server w endpoint payload k = PostRaises e ->
  is_Exception e = false ->
  let s := analyze_resumes w (S max_retries + extra) payload endpoint approach_name in
  st s = Raised e
  /\ posts (trace s) = S k
  /\ current_try s = k
  /\ filter is_failure_notice (trace s) = [].
Proof.
  intros Hk Hall Hsrv He s.
  pose proof (analyze_verdict w payload endpoint approach_name extra) as Hv.
  fold s in Hv. unfold expected_end in Hv.
  replace max_retries with (k + S (max_retries - S k)) in Hv at 1 by lia.
  rewrite verdict_from_skip in Hv by (intros j Hj; apply Hall; lia).
  cbn [verdict_from Nat.add] in Hv. rewrite Hsrv in Hv.
  unfold classify in Hv. rewrite He in Hv.
  injection Hv as Hst Hp Hc.
  assert (Hn : notice_shape s) by (apply notice_shape_run; [apply inv_init | reflexivity]).
  unfold notice_shape in Hn. rewrite Hst, Hc in Hn.
  assert (Hne : (k =? max_retries) = false) by (apply Nat.eqb_neq; lia).
  rewrite Hne in Hn. auto.
Qed.

Lemma base_exception_leaves_dispatcher_witness :
  let s := analyze_resumes interrupted_world 4 sample_payload approach2_url
                           "OCR-based Analysis" in
  st s = Raised (mkExn ClsBaseException "KeyboardInterrupt")
  /\ posts (trace s) = 2
  /\ current_try s = 1
  /\ filter is_failure_notice (trace s) = [].
Proof.
  apply (base_exception_leaves_dispatcher interrupted_world sample_payload approach2_url
           "OCR-based Analysis" 1 (mkExn ClsBaseException "KeyboardInterrupt") 0).
  - unfold max_retries. lia.
  - intros j Hj. destruct j as [|j]; [reflexivity | lia].
  - reflexivity.
  - reflexivity.
Defined.

(** ** A success message is not a success *)

(** X7. An attempt answered with status 200 and a body that is valid JSON
    but not an object shows the body and "Analysis completed successfully!"
    and only then fails: the missing [.get] is reported as an unexpected
    error, the counter goes up by one and the attempt is retried. *)
Theorem non_object_200_shows_success_and_retries (w : World) (payload : pyval)
        (endpoint : string) (s : state) (r : Response) (v : pyval) :
  st s = Running ->
  current_try s < max_retries ->
  server w endpoint payload (posts (trace s)) = Responds r ->
  status_code r = 200%Z ->
  json_body r = Some v ->
  (forall d, v <> PDict d) ->
  let c := current_try s in
  let s' := step w payload endpoint s in
  st s' = Running
  /\ current_try s' = S c
  /\ trace s' = trace s ++ response_details payload endpoint c r
                  ++ [ StWrite [Txt "Response Body:"]; StJson v;
                       StSuccess [Txt "Analysis completed successfully!"];
                       no_get_report c v ]
                  ++ wait_events c
  /\ filter is_success (trace s')
     = filter is_success (trace s) ++ [StSuccess [Txt "Analysis completed successfully!"]].
Proof.
  intros Hrun Hlt Hsrv Hs Hb Hv c s'.
  pose proof (attempt_200 w payload endpoint c (trace s) r Hsrv Hs) as Ha.
  rewrite Hb in Ha.
  assert (Ha' : attempt w payload endpoint c (trace s) =
                (Ok (Next (c + 1)),
                 trace s ++ response_details payload endpoint c r
                   ++ [ StWrite [Txt "Response Body:"]; StJson v;
                        StSuccess [Txt "Analysis completed successfully!"];
                        no_get_report c v ]
                   ++ wait_events c)).
  { destruct v; try exact Ha. now destruct (Hv d). }
  assert (Hs' : s' = mkState (c + 1) _ Running) by (apply step_next; eassumption).
  rewrite Hs'. cbn [st current_try trace].
  repeat split; try lia.
  rewrite !filter_app, wait_events_no_success. cbn. rewrite ?app_nil_r. reflexivity.
Qed.

Lemma non_object_200_shows_success_and_retries_witness :
  let w := constant_world (Responds response_ok_array) in
  let s := init sample_payload "OCR-based Analysis" in
  let s' := step w sample_payload approach2_url s in
  st s' = Running
  /\ current_try s' = 1
  /\ trace s' = trace s ++ response_details sample_payload approach2_url 0 response_ok_array
                  ++ [ StWrite [Txt "Response Body:"]; StJson (PList []);
                       StSuccess [Txt "Analysis completed successfully!"];
                       no_get_report 0 (PList []) ]
                  ++ wait_events 0
  /\ filter is_success (trace s')
     = filter is_success (trace s) ++ [StSuccess [Txt "Analysis completed successfully!"]].
Proof.
  apply (non_object_200_shows_success_and_retries
           (constant_world (Responds response_ok_array)) sample_payload approach2_url
           (init sample_payload "OCR-based Analysis") response_ok_array (PList [])).
  - reflexivity.
  - simpl. unfold max_retries. lia.
  - reflexivity.
  - reflexivity.
  - reflexivity.
  - intros d. discriminate.
Defined.

(** ** One retry policy for every kind of failure *)

Lemma all_retried_spec (w : World) (payload : pyval) (endpoint : string) :
  all_retried w payload endpoint = true ->
  forall k, k < max_retries -> retried (server w endpoint payload k) = true.
Proof.
  unfold all_retried. intros H k Hk.
  rewrite forallb_forall in H. apply H. apply in_seq. lia.
Qed.

(** X8. Two dispatches whose three attempts are all retried, for whatever
    mix of reasons (a status other than 200, a body that does not parse or
    is no object, a timeout, another request exception, any other
    [Exception]), make the same calls and the same delays, leave the counter
    at 3, show the failure notice once and return [None]. *)
Theorem retry_policy_is_uniform (w1 w2 : World) (payload : pyval)
        (endpoint approach_name : string) (extra : nat) :
  all_retried w1 payload endpoint = true ->
  all_retried w2 payload endpoint = true ->
  let s1 := analyze_resumes w1 (S max_retries + extra) payload endpoint approach_name in
  let s2 := analyze_resumes w2 (S max_retries + extra) payload endpoint approach_name in
  st s1 = Returned PNone
  /\ st s2 = Returned PNone
  /\ io (trace s1) = io (trace s2)
  /\ current_try s1 = 3
  /\ current_try s2 = 3
  /\ filter is_failure_notice (trace s1) = [failure_notice]
  /\ filter is_failure_notice (trace s2) = [failure_notice].
Proof.
  intros H1 H2 s1 s2.
  destruct (all_retried_exhaust w1 payload endpoint approach_name extra
              (all_retried_spec _ _ _ H1)) as (Hst1 & Hc1 & Hio1).
  destruct (all_retried_exhaust w2 payload endpoint approach_name extra
              (all_retried_spec _ _ _ H2)) as (Hst2 & Hc2 & Hio2).
  fold s1 in Hst1, Hc1, Hio1. fold s2 in Hst2, Hc2, Hio2.
  assert (Hn1 : notice_shape s1) by (apply notice_shape_run; [apply inv_init | reflexivity]).
  assert (Hn2 : notice_shape s2) by (apply notice_shape_run; [apply inv_init | reflexivity]).
  unfold notice_shape in Hn1, Hn2.
  rewrite Hst1, Hc1 in Hn1. rewrite Hst2, Hc2 in Hn2.
  rewrite Hio1, Hio2. repeat split; auto.
Qed.

Lemma retry_policy_is_uniform_witness :
  let s1 := analyze_resumes (constant_world (PostRaises read_timeout)) 4
                            sample_payload approach2_url "OCR-based Analysis" in
  let s2 := analyze_resumes (constant_world (Responds response_ok_html)) 4
                            sample_payload approach2_url "OCR-based Analysis" in
  st s1 = Returned PNone
  /\ st s2 = Returned PNone
  /\ io (trace s1) = io (trace s2)
  /\ current_try s1 = 3
  /\ current_try s2 = 3
  /\ filter is_failure_notice (trace s1) = [failure_notice]
  /\ filter is_failure_notice (trace s2) = [failure_notice].
Proof.
  apply (retry_policy_is_uniform (constant_world (PostRaises read_timeout))
           (constant_world (Responds response_ok_html))
           sample_payload approach2_url "OCR-based Analysis" 0); reflexivity.
Defined.

(** * The prompt builder *)

Lemma append_inj_l (a x y : string) : (a ++ x)%string = (a ++ y)%string -> x = y.
Proof.
  induction a as [|c a IH]; simpl; intros H; [exact H|].
  injection H as H. auto.
Qed.

Lemma append_empty_r (a : string) : (a ++ EmptyString)%string = a.
Proof. induction a as [|c a IH]; simpl; [reflexivity | now rewrite IH]. Qed.

(** X9. Different requirement texts give different prompts: two strings
    for which the prompt builder returns the same prompt are equal (the empty
    string included, which alone gives the bare rubric). *)
Theorem prompt_determines_requirements (format_value : pyval -> string) (s1 s2 : string) :
  get_analysis_prompt format_value (PStr s1) = get_analysis_prompt format_value (PStr s2) ->
  s1 = s2.
Proof.
  unfold get_analysis_prompt, additional_requirements.
  destruct s1 as [|a1 s1], s2 as [|a2 s2]; cbn [truthy py_format]; intros H.
  - reflexivity.
  - rewrite <- (append_empty_r base_prompt) in H at 1.
    apply append_inj_l in H. discriminate H.
  - rewrite <- (append_empty_r base_prompt) in H at 2.
    apply append_inj_l in H. discriminate H.
  - apply append_inj_l in H. now apply append_inj_l in H.
Qed.

Lemma prompt_determines_requirements_witness :
  get_analysis_prompt (fun _ => "None") (PStr "AWS experience")
  = get_analysis_prompt (fun _ => "None") (PStr "AWS experience")
  /\ "AWS experience" = "AWS experience".
Proof.
  split; [reflexivity|].
  apply (prompt_determines_requirements (fun _ => "None")). reflexivity.
Defined.

(** * The three flows *)

Lemma base64_images_nonempty (b64encode : list Byte.byte -> string)
      (ext_lower : string -> string) (read : string -> option (list Byte.byte))
      (paths : list string) :
  nonempty (base64_images b64encode ext_lower read paths)
  = existsb (fun p => is_some (read p)) paths.
Proof.
  induction paths as [|p paths IH]; simpl; [reflexivity|].
  destruct (read p); simpl; auto.
Qed.

Lemma existsb_nonempty {A} (f : A -> bool) (l : list A) :
  existsb f l = true -> nonempty l = true.
Proof. destruct l; [discriminate | reflexivity]. Qed.

(** X10. The flow of the sample images calls the dispatcher exactly when
    the button was clicked and at least one sample image could be read, and
    then once; a directory without images, or one whose images all fail to
    load, leads to no call.  The images sent are one for each readable file,
    in the order of the directory listing, each with the MIME type
    "image/" followed by the lower-cased extension of its own path. *)
Theorem default_flow_guard (format_value : pyval -> string)
        (b64encode : list Byte.byte -> string) (ext_lower : string -> string) (i : Inputs) :
  let sent := base64_images b64encode ext_lower (read_file i) (images i) in
  default_images_flow format_value b64encode ext_lower i
  = (if analyze_default_clicked i && existsb (fun p => is_some (read_file i p)) (images i)
     then [mkCall (PDict [("images", PList sent);
                          ("prompt", prompt_for format_value (image_requirements i))])
                  approach1_url "Image-based Analysis"]
     else [])
  /\ map (entry "mime_type") sent
     = map (fun p => PStr ("image/" ++ ext_lower p)%string)
           (filter (fun p => is_some (read_file i p)) (images i))
  /\ map Some (map (entry "data") sent)
     = map (option_map (fun bytes => PStr (b64encode bytes)))
           (filter is_some (map (read_file i) (images i))).
Proof.
  intros sent. split; [|split].
  - unfold default_images_flow. fold sent. unfold sent.
    rewrite base64_images_nonempty.
    destruct (existsb (fun p => is_some (read_file i p)) (images i)) eqn:He.
    + rewrite (existsb_nonempty _ _ He).
      destruct (analyze_default_clicked i); reflexivity.
    + destruct (nonempty (images i)), (analyze_default_clicked i); reflexivity.
  - unfold sent. induction (images i) as [|p paths IH]; simpl; [reflexivity|].
    destruct (read_file i p); simpl; [now rewrite IH | exact IH].
  - unfold sent. induction (images i) as [|p paths IH]; simpl; [reflexivity|].
    destruct (read_file i p); simpl; [now rewrite IH | exact IH].
Qed.

Lemma ocr_records_nonempty (load : string -> option pyval) (paths : list string) :
  nonempty (ocr_records load paths) = existsb (fun p => is_some (load p)) paths.
Proof.
  induction paths as [|p paths IH]; simpl; [reflexivity|].
  destruct (load p); simpl; auto.
Qed.

(** X11. The OCR flow calls the dispatcher exactly when its button was
    clicked and at least one OCR file could be loaded, and then once; the
    records sent are the contents of the files that load, in the order of
    the listing, the files that fail being skipped. *)
Theorem ocr_flow_guard (format_value : pyval -> string) (i : Inputs) :
  let sent := ocr_records (load_json i) (ocr_files i) in
  ocr_flow format_value i
  = (if analyze_ocr_clicked i && existsb (fun p => is_some (load_json i p)) (ocr_files i)
     then [mkCall (PDict [("ocr_list", PList sent);
                          ("prompt", prompt_for format_value (ocr_requirements i))])
                  approach2_url "OCR-based Analysis"]
     else [])
  /\ map Some sent = filter is_some (map (load_json i) (ocr_files i)).
Proof.
  intros sent. split.
  - unfold ocr_flow. fold sent. unfold sent. rewrite ocr_records_nonempty.
    destruct (analyze_ocr_clicked i),
             (existsb (fun p => is_some (load_json i p)) (ocr_files i)); reflexivity.
  - unfold sent. induction (ocr_files i) as [|p paths IH]; simpl; [reflexivity|].
    destruct (load_json i p); simpl; [now rewrite IH | exact IH].
Qed.

(** X12. Every call of a run of the script is routed by what it carries:
    images go to the first endpoint under the name "Image-based Analysis"
    with the prompt built from the requirements of the first tab, OCR
    records go to the second endpoint under the name "OCR-based Analysis"
    with the prompt built from the requirements of the second tab. *)
Theorem calls_well_routed (format_value : pyval -> string)
        (b64encode : list Byte.byte -> string) (ext_lower : string -> string) (i : Inputs) :
  Forall (well_routed format_value i)
         (dispatch_calls format_value b64encode ext_lower i).
Proof.
  unfold dispatch_calls. rewrite !Forall_app. repeat split.
  - unfold default_images_flow.
    destruct (nonempty (images i)); [|constructor].
    destruct (analyze_default_clicked i); [|constructor].
    destruct (nonempty _); constructor; [|constructor].
    left. repeat split; reflexivity.
  - unfold upload_flow.
    destruct (nonempty (uploaded_files i)); constructor; [|constructor].
    left. repeat split; reflexivity.
  - unfold ocr_flow.
    destruct (analyze_ocr_clicked i); [|constructor].
    destruct (nonempty _); constructor; [|constructor].
    right. repeat split; reflexivity.
Qed.

Lemma flow_lengths (format_value : pyval -> string)
      (b64encode : list Byte.byte -> string) (ext_lower : string -> string) (i : Inputs) :
  length (default_images_flow format_value b64encode ext_lower i) <= 1
  /\ length (upload_flow format_value b64encode i) <= 1
  /\ length (ocr_flow format_value i) <= 1.
Proof.
  unfold default_images_flow, upload_flow, ocr_flow.
  repeat split;
    repeat match goal with
           | |- context [if ?b then _ else _] => destruct b
           end; simpl; lia.
Qed.

Lemma sum_posts_bound (l : list state) :
  Forall (fun s => posts (trace s) <= max_retries) l ->
  list_sum (map (fun s => posts (trace s)) l) <= max_retries * length l.
Proof.
  induction 1 as [|s l Hs _ IH]; simpl; [lia|]. unfold max_retries in *. lia.
Qed.

(** X13. One run of the script calls the dispatcher at most three times,
    once at most for each flow, so it makes at most nine POSTs in all; and
    each of these calls has ended after [max_retries + 1] evaluations of its
    loop test. *)
Theorem script_run_bounded (format_value : pyval -> string)
        (b64encode : list Byte.byte -> string) (ext_lower : string -> string)
        (w : World) (i : Inputs) (extra : nat) :
  let runs := run_app format_value b64encode ext_lower w (S max_retries + extra) i in
  length runs <= 3
  /\ list_sum (map (fun s => posts (trace s)) runs) <= 9
  /\ Forall (fun s => st s <> Running) runs.
Proof.
  intros runs.
  assert (Hlen : length runs <= 3).
  { unfold runs, run_app, dispatch_calls. rewrite length_map, !length_app.
    destruct (flow_lengths format_value b64encode ext_lower i) as (H1 & H2 & H3). lia. }
  assert (Hall : Forall (fun s => posts (trace s) <= max_retries /\ st s <> Running) runs).
  { unfold runs, run_app. apply Forall_forall. intros s Hs.
    apply in_map_iff in Hs. destruct Hs as (c & <- & _). split.
    - assert (Hinv : inv (call_payload c) (call_endpoint c)
                         (analyze_resumes w (S max_retries + extra) (call_payload c)
                                          (call_endpoint c) (call_name c)))
        by (apply inv_run, inv_init).
      destruct Hinv as (_ & Hp & _). exact Hp.
    - apply run_halts; [apply inv_init | lia]. }
  split; [exact Hlen|]. split.
  - pose proof (sum_posts_bound runs) as Hsum.
    assert (H : Forall (fun s => posts (trace s) <= max_retries) runs)
      by (eapply Forall_impl; [|exact Hall]; intros s [H _]; exact H).
    specialize (Hsum H). unfold max_retries in Hsum. lia.
  - eapply Forall_impl; [|exact Hall]. intros s [_ H]. exact H.
Qed.

(** X14. After the dispatch of the upload flow the script shows either
    nothing, or the heading "Analysis Results" and a value that is true in
    Python's sense and is the [analysis] entry of a JSON object some attempt
    received with status 200.  A dispatch that ran out of attempts, returned
    an absent or empty analysis, or raised, shows no result. *)
Theorem upload_shows_only_real_results (w : World) (payload : pyval)
        (endpoint approach_name : string) (fuel : nat) :
  let s := analyze_resumes w fuel payload endpoint approach_name in
  shown_after_upload s = []
  \/ exists v,
       st s = Returned v
       /\ truthy v = true
       /\ extracted_analysis w payload endpoint v
       /\ shown_after_upload s = [StSubheader [Txt "Analysis Results"]; StJson v].
Proof.
  intros s.
  assert (Hacc : accounted w payload endpoint s)
    by (apply accounted_run; [apply inv_init | exact I]).
  unfold accounted in Hacc. unfold shown_after_upload.
  destruct (st s) as [|v|e]; [now left | | now left].
  destruct (truthy v) eqn:Ht; [|now left].
  right. exists v. destruct Hacc as [->|Hex]; [discriminate Ht|]. auto.
Qed.

(** * The loaders *)

Lemma str_le_iff (a b : string) :
  str_le a b <-> String_as_OT.lt a b \/ a = b.
Proof.
  unfold str_le, String.leb.
  pose proof (String_as_OT.cmp_lt a b) as Hlt.
  pose proof (String_as_OT.cmp_eq a b) as Heq.
  unfold String_as_OT.cmp in *.
  destruct (String.compare a b) eqn:Hc.
  - split; [intros _; right; now apply Heq | reflexivity].
  - split; [intros _; left; now apply Hlt | reflexivity].
  - split; [discriminate|].
    intros [H|H]; [apply Hlt in H | apply Heq in H]; discriminate.
Qed.

Lemma str_le_trans (a b c : string) : str_le a b -> str_le b c -> str_le a c.
Proof.
  rewrite !str_le_iff. intros [Hab| ->] [Hbc| ->]; auto.
  left. eapply String_as_OT.lt_trans; eassumption.
Qed.

Lemma str_le_total (a b : string) : str_le a b \/ str_le b a.
Proof. apply String.leb_total. Qed.

Lemma str_le_antisym (a b : string) : str_le a b -> str_le b a -> a = b.
Proof. apply String.leb_antisym. Qed.

Lemma insert_sorted_perm (x : string) (l : list string) :
  Permutation (insert_sorted x l) (x :: l).
Proof.
  induction l as [|y l IH]; simpl; [reflexivity|].
  destruct (String.leb x y); [reflexivity|].
  rewrite IH. apply perm_swap.
Qed.

Lemma sorted_perm (l : list string) : Permutation (sorted l) l.
Proof.
  induction l as [|x l IH]; simpl; [reflexivity|].
  rewrite insert_sorted_perm. now constructor.
Qed.

Lemma insert_sorted_sorted (x : string) (l : list string) :
  StronglySorted str_le l -> StronglySorted str_le (insert_sorted x l).
Proof.
  induction 1 as [|y l Hl IH Hy]; simpl.
  - repeat constructor.
  - destruct (String.leb x y) eqn:Hxy.
    + constructor; [now constructor|].
      constructor; [exact Hxy|].
      eapply Forall_impl; [|exact Hy]. intros z Hz. eapply str_le_trans; eassumption.
    + assert (Hyx : str_le y x).
      { destruct (str_le_total x y) as [H|H]; [unfold str_le in H; congruence | exact H]. }
      constructor; [exact IH|].
      rewrite insert_sorted_perm. now constructor.
Qed.

Lemma sorted_sorted (l : list string) : StronglySorted str_le (sorted l).
Proof.
  induction l as [|x l IH]; simpl; [constructor | now apply insert_sorted_sorted].
Qed.

(** A list has one ascending arrangement only. *)
Lemma sorted_unique (l1 : list string) :
  forall l2,
    StronglySorted str_le l1 -> StronglySorted str_le l2 -> Permutation l1 l2 -> l1 = l2.
Proof.
  induction l1 as [|a l1 IH]; intros l2 H1 H2 Hp.
  - apply Permutation_nil in Hp. now subst.
  - destruct l2 as [|b l2]; [symmetry in Hp; now apply Permutation_nil in Hp|].
    inversion H1 as [|? ? Hs1 Ha]; subst. inversion H2 as [|? ? Hs2 Hb]; subst.
    assert (Hab : a = b).
    { assert (Hin1 : In a (b :: l2)) by (eapply Permutation_in; [exact Hp | now left]).
      assert (Hin2 : In b (a :: l1))
        by (eapply Permutation_in; [symmetry; exact Hp | now left]).
      destruct Hin1 as [->|Hin1]; [reflexivity|].
      destruct Hin2 as [->|Hin2]; [reflexivity|].
      rewrite Forall_forall in Ha, Hb.
      apply str_le_antisym; auto. }
    subst b. f_equal. apply IH; auto.
    eapply Permutation_cons_inv; exact Hp.
Qed.

Lemma sorted_of_perm (l1 l2 : list string) : Permutation l1 l2 -> sorted l1 = sorted l2.
Proof.
  intros Hp. apply sorted_unique; auto using sorted_sorted.
  rewrite !sorted_perm. exact Hp.
Qed.

(** X15. The image loader returns, in ascending order of path, exactly
    the paths the file system holds for the five patterns of the images
    directory ("*.jpg", "*.jpeg", "*.png", "*.webp", "*.heic"): none is lost,
    none is added, and a path listed twice stays twice. *)
Theorem images_sorted_and_complete (glob : string -> list string) (BASE_DIR : string) :
  let found := load_images_from_directory glob BASE_DIR in
  StronglySorted str_le found
  /\ Permutation found
       (glob (image_pattern BASE_DIR "jpg") ++ glob (image_pattern BASE_DIR "jpeg")
          ++ glob (image_pattern BASE_DIR "png") ++ glob (image_pattern BASE_DIR "webp")
          ++ glob (image_pattern BASE_DIR "heic")).
Proof.
  intros found. split; [apply sorted_sorted|].
  unfold found, load_images_from_directory. rewrite sorted_perm.
  simpl. now rewrite app_nil_r.
Qed.

(** X16. The OCR loader returns, in ascending order of path, exactly the
    paths the file system holds for "*.json" in the OCR directory. *)
Theorem ocr_files_sorted_and_complete (glob : string -> list string) (BASE_DIR : string) :
  let found := load_ocr_files glob BASE_DIR in
  StronglySorted str_le found
  /\ Permutation found (glob (path_join (OCR_DIR BASE_DIR) "*.json")).
Proof.
  intros found. split; [apply sorted_sorted|].
  apply sorted_perm.
Qed.

Lemma flat_map_perm {A B} (f g : A -> list B) (l : list A) :
  (forall a, Permutation (f a) (g a)) -> Permutation (flat_map f l) (flat_map g l).
Proof.
  intros H. induction l as [|a l IH]; simpl; [reflexivity|].
  now apply Permutation_app.
Qed.

(** X17. The order in which the file system lists a directory does not
    matter: two listings that hold the same paths for every pattern give the
    same sample images, the same OCR files, and with them the same calls of
    the dispatcher with the same payloads. *)
Theorem listing_order_irrelevant (glob1 glob2 : string -> list string) (BASE_DIR : string)
        (format_value : pyval -> string) (b64encode : list Byte.byte -> string)
        (ext_lower : string -> string) (i : Inputs) :
  (forall pattern, Permutation (glob1 pattern) (glob2 pattern)) ->
  load_images_from_directory glob1 BASE_DIR = load_images_from_directory glob2 BASE_DIR
  /\ load_ocr_files glob1 BASE_DIR = load_ocr_files glob2 BASE_DIR
  /\ dispatch_calls format_value b64encode ext_lower (with_sample_files glob1 BASE_DIR i)
     = dispatch_calls format_value b64encode ext_lower (with_sample_files glob2 BASE_DIR i).
Proof.
  intros Hp.
  assert (Himg : load_images_from_directory glob1 BASE_DIR
                 = load_images_from_directory glob2 BASE_DIR).
  { apply sorted_of_perm, flat_map_perm. intros ext. apply Hp. }
  assert (Hocr : load_ocr_files glob1 BASE_DIR = load_ocr_files glob2 BASE_DIR).
  { apply sorted_of_perm, Hp. }
  repeat split; auto.
  unfold with_sample_files. now rewrite Himg, Hocr.
Qed.

Lemma sample_globs_agree (pattern : string) :
  Permutation (sample_glob pattern) (sample_glob' pattern).
Proof.
  unfold sample_glob, sample_glob'.
  destruct (String.eqb pattern "/app/images/*.png"); [apply perm_swap|].
  destruct (String.eqb pattern "/app/images/*.jpg"); [reflexivity|].
  destruct (String.eqb pattern "/app/OCR/*.json"); [apply perm_swap | reflexivity].
Qed.

Lemma listing_order_irrelevant_witness :
  load_images_from_directory sample_glob "/app"
  = ["/app/images/a.png"; "/app/images/b.png"; "/app/images/c.jpg"]
  /\ load_images_from_directory sample_glob "/app"
     = load_images_from_directory sample_glob' "/app"
  /\ load_ocr_files sample_glob "/app" = load_ocr_files sample_glob' "/app"
  /\ dispatch_calls (fun _ => "None") (fun _ => "iVBORw==") (fun _ => "png")
                    (with_sample_files sample_glob "/app" sample_upload)
     = dispatch_calls (fun _ => "None") (fun _ => "iVBORw==") (fun _ => "png")
                      (with_sample_files sample_glob' "/app" sample_upload).
Proof.
  split; [reflexivity|].
  apply (listing_order_irrelevant sample_glob sample_glob' "/app" (fun _ => "None")
           (fun _ => "iVBORw==") (fun _ => "png") sample_upload).
  exact sample_globs_agree.
Defined.

(** * The gallery *)

Lemma combine_app {A B} (l1 l2 : list A) (l1' l2' : list B) :
  length l1 = length l1' ->
  combine (l1 ++ l2) (l1' ++ l2') = combine l1 l1' ++ combine l2 l2'.
Proof.
  revert l1'. induction l1 as [|a l1 IH]; intros [|b l1'] H; simpl in *;
    try discriminate; [reflexivity|].
  f_equal. apply IH. now injection H.
Qed.

Lemma map_snd_combine {A B} (l : list A) (l' : list B) :
  length l = length l' -> map snd (combine l l') = l'.
Proof.
  revert l'. induction l as [|a l IH]; intros [|b l'] H; simpl in *;
    try discriminate; [reflexivity|].
  f_equal. apply IH. now injection H.
Qed.

Lemma enumerate_snoc {A} (l : list A) (x : A) :
  enumerate (l ++ [x]) = enumerate l ++ [(length l, x)].
Proof.
  unfold enumerate. rewrite length_app. simpl.
  rewrite Nat.add_1_r, seq_S. simpl.
  rewrite combine_app by now rewrite length_seq. reflexivity.
Qed.

Lemma cols_lookup (idx : nat) : nth_error cols (idx mod 3) = Some (idx mod 3).
Proof.
  assert (H : idx mod 3 < 3) by (apply Nat.mod_upper_bound; lia).
  destruct (idx mod 3) as [|[|[|k]]]; try reflexivity; lia.
Qed.

Lemma column_images_snoc (k : nat) (l : list string) (x : string) :
  column_images k (l ++ [x])
  = column_images k l ++ (if length l mod 3 =? k then [x] else []).
Proof.
  unfold column_images, gallery. rewrite enumerate_snoc, map_app, filter_app, map_app.
  f_equal. cbn [map filter fst snd]. rewrite cols_lookup.
  destruct (length l mod 3 =? k); reflexivity.
Qed.

Lemma column_loads (l : list string) :
  let n := length l in
  let c0 := length (column_images 0 l) in
  let c1 := length (column_images 1 l) in
  let c2 := length (column_images 2 l) in
  c0 + c1 + c2 = n
  /\ match n mod 3 with
     | 0 => c0 = c1 /\ c1 = c2
     | 1 => c0 = S c1 /\ c1 = c2
     | _ => c0 = c1 /\ c1 = S c2
     end.
Proof.
  induction l as [|x l IH] using rev_ind; [simpl; auto|].
  cbv zeta in *. rewrite !column_images_snoc, !length_app. simpl (length [x]).
  destruct IH as [Hsum Hmod].
  pose proof (Nat.div_mod_eq (length l) 3) as Hd.
  pose proof (Nat.mod_upper_bound (length l) 3 ltac:(lia)) as Hb.
  pose proof (Nat.div_mod_eq (length l + 1) 3) as Hd'.
  pose proof (Nat.mod_upper_bound (length l + 1) 3 ltac:(lia)) as Hb'.
  destruct (length l mod 3) as [|[|[|r]]] eqn:Hr; try lia;
    destruct ((length l + 1) mod 3) as [|[|[|r']]] eqn:Hr'; try lia;
    simpl; lia.
Qed.

(** X18. The gallery puts every sample image in one of the three columns
    that exist, the index [idx % 3] never falling outside them, keeps the
    order of the listing within a column, and fills the columns evenly: no
    column holds more images than a column to its left, and the first holds
    at most one more than the last. *)
Theorem gallery_columns_balanced (image_paths : list string) :
  Forall (fun cp => exists k, fst cp = Some k /\ k < 3) (gallery image_paths)
  /\ map snd (gallery image_paths) = image_paths
  /\ length (column_images 0 image_paths) + length (column_images 1 image_paths)
     + length (column_images 2 image_paths) = length image_paths
  /\ length (column_images 2 image_paths) <= length (column_images 1 image_paths)
  /\ length (column_images 1 image_paths) <= length (column_images 0 image_paths)
  /\ length (column_images 0 image_paths) <= S (length (column_images 2 image_paths)).
Proof.
  split; [|split].
  - unfold gallery. apply Forall_forall. intros cp Hin.
    apply in_map_iff in Hin. destruct Hin as ([idx p] & <- & _). simpl.
    exists (idx mod 3). split; [apply cols_lookup | apply Nat.mod_upper_bound; lia].
  - unfold gallery, enumerate. rewrite map_map. simpl.
    apply map_snd_combine, length_seq.
  - destruct (column_loads image_paths) as [Hsum Hmod]. cbv zeta in *.
    destruct (length image_paths mod 3) as [|[|r]]; lia.
Qed.
